(** * tsuru: the event API handlers (api/event.go) and the event engine

    The handlers of [api/event.go] are embedded as functions of a small
    state-and-error monad.  The state holds the shared event store, the
    [http.ResponseWriter] being filled and the log of the calls made to the
    collaborating packages ([event], [permission]).  The packages whose
    source is not part of this development are interfaces (type classes);
    the event engine also has a model that follows its specification,
    in [Module Engine]. *)

From Stdlib Require Import String Ascii List ZArith NArith Bool Arith Lia.
From Stdlib Require Import Permutation.
From Stdlib Require Import DecimalString.
Import ListNotations.
Open Scope string_scope.
Open Scope Z_scope.

Set Implicit Arguments.

(** ** Errors *)

(** Go's [error] values that the handlers build or inspect.  [HTTP] is
    [*errors.HTTP]; [ErrUnauthorized] is the sentinel
    [permission.ErrUnauthorized]; [ErrNotCancelable] is
    [event.ErrNotCancelable]; [ErrActiveEventBlockNotFound] is the type
    [*event.ErrActiveEventBlockNotFound].  [Locked], [Blocked],
    [InvalidInput] and [NotFound] are the other failures of the engine's
    taxonomy, [SyntaxError] is [*strconv.NumError] and [Failure] is any
    other error (a store failure, a malformed request body). *)
Inductive error : Type :=
| HTTP (Code : Z) (Message : string)
| ErrUnauthorized
| ErrNotCancelable
| ErrActiveEventBlockNotFound (id : string)
| Locked
| Blocked
| InvalidInput (msg : string)
| NotFound
| SyntaxError (fn num : string)
| Failure (msg : string).

Inductive result (A : Type) : Type :=
| Ok (a : A)
| Err (e : error).
Arguments Ok {A} a.
Arguments Err {A} e.

Definition StatusOK : Z := 200.
Definition StatusNoContent : Z := 204.
Definition StatusBadRequest : Z := 400.
Definition StatusNotFound : Z := 404.

(** [err == event.ErrNotCancelable] *)
Definition isErrNotCancelable (e : error) : bool :=
  match e with ErrNotCancelable => true | _ => false end.

(** The type assertion of [err] to a pointer to
    [event.ErrActiveEventBlockNotFound]. *)
Definition isErrActiveEventBlockNotFound (e : option error) : bool :=
  match e with Some (ErrActiveEventBlockNotFound _) => true | _ => false end.

(** ** bson.ObjectId and encoding/hex *)

(** [bson.ObjectId] is a string of 12 raw bytes. *)
Definition ObjectId : Type := string.

Definition fromHexChar (c : ascii) : option N :=
  let n := N_of_ascii c in
  if ((48 <=? n) && (n <=? 57))%N then Some (n - 48)%N
  else if ((97 <=? n) && (n <=? 102))%N then Some (n - 97 + 10)%N
  else if ((65 <=? n) && (n <=? 70))%N then Some (n - 65 + 10)%N
  else None.

(** [hex.DecodeString]: [None] stands for its error. *)
Fixpoint hexDecode (s : string) : option string :=
  match s with
  | EmptyString => Some EmptyString
  | String _ EmptyString => None
  | String a (String b rest) =>
      match fromHexChar a, fromHexChar b, hexDecode rest with
      | Some x, Some y, Some d => Some (String (ascii_of_N (16 * x + y)) d)
      | _, _, _ => None
      end
  end.

Definition hexDigit (n : N) : ascii :=
  if (n <? 10)%N then ascii_of_N (48 + n) else ascii_of_N (97 + n - 10).

(** [hex.EncodeToString] *)
Fixpoint hexEncode (s : string) : string :=
  match s with
  | EmptyString => EmptyString
  | String c rest =>
      let n := N_of_ascii c in
      String (hexDigit (n / 16)) (String (hexDigit (n mod 16)) (hexEncode rest))
  end.

(** [bson.IsObjectIdHex] *)
Definition IsObjectIdHex (s : string) : bool :=
  if negb (Nat.eqb (String.length s) 24) then false
  else match hexDecode s with Some _ => true | None => false end.

(** [bson.ObjectIdHex].  The source panics on a string that does not
    decode; every call of the handlers is behind [IsObjectIdHex]
    (see [ObjectIdHex_defined]), so that branch yields the empty id here. *)
Definition ObjectIdHex (s : string) : ObjectId :=
  match hexDecode s with Some d => d | None => EmptyString end.

(** [ObjectId.Hex] *)
Definition Hex (id : ObjectId) : string := hexEncode id.

(** ** strconv.ParseBool *)

Definition ParseBool (str : string) : bool * option error :=
  if existsb (String.eqb str) ["1"; "t"; "T"; "true"; "TRUE"; "True"]
  then (true, None)
  else if existsb (String.eqb str) ["0"; "f"; "F"; "false"; "FALSE"; "False"]
  then (false, None)
  else (false, Some (SyntaxError "ParseBool" str)).

(** ** Data model *)

Record Target : Type := mkTarget {
  Target_Type : string;
  Target_Value : string }.

(** [event.Kind] and [event.Owner], by their names. *)
Record Kind : Type := mkKind {
  Kind_Name : string }.

Record Owner : Type := mkOwner {
  Owner_Name : string }.

(** A permission scheme, identified by its full name. *)
Record PermissionScheme : Type := mkScheme {
  FullName : string }.

Record PermissionContext : Type := mkContext {
  CtxType : string;
  CtxValue : string }.

Record Permission : Type := mkPermission {
  Perm_Scheme : PermissionScheme;
  Perm_Context : PermissionContext }.

(** [event.AllowedPermission]: a scheme name and a list of contexts. *)
Record AllowedPermission : Type := mkAllowed {
  Scheme : string;
  Contexts : list PermissionContext }.

(** [bson.Raw] *)
Record Raw : Type := mkRaw {
  Raw_Kind : Byte.byte;
  Data : list Byte.byte }.

Record CancelInfo : Type := mkCancelInfo {
  Asked : bool;
  Reason : string;
  RequestedBy : string;
  AskTime : Z;
  Canceled : bool }.

Record Event : Type := mkEvent {
  UniqueID : ObjectId;
  Event_Target : Target;
  Event_Kind : Kind;
  Event_Owner : Owner;
  Event_RemoteAddr : string;
  StartTime : Z;
  EndTime : option Z;
  Error : option string;
  StartCustomData : Raw;
  EndCustomData : Raw;
  Allowed : AllowedPermission;
  AllowedCancel : AllowedPermission;
  Event_CancelInfo : option CancelInfo }.

(** Running is derived: the event has no end time. *)
Definition Running (e : Event) : bool :=
  match EndTime e with None => true | Some _ => false end.

Record Block : Type := mkBlock {
  Block_ID : ObjectId;
  Block_StartTime : Z;
  Block_EndTime : option Z;
  KindName : string;
  OwnerName : string;
  Block_Target : Target;
  Block_Reason : string }.

(** A block is active iff it has no end time. *)
Definition Active (b : Block) : bool :=
  match Block_EndTime b with None => true | Some _ => false end.

(** [auth.Token], by the methods the handlers call. *)
Record Token : Type := mkToken {
  GetUserName : string;
  Permissions : result (list Permission) }.

(** [url.Values] *)
Definition Values : Type := list (string * list string).

Fixpoint Values_Get (v : Values) (key : string) : string :=
  match v with
  | [] => ""
  | (k, vs) :: rest =>
      if String.eqb k key then match vs with [] => "" | x :: _ => x end
      else Values_Get rest key
  end.

Record Request : Type := mkRequest {
  URL_Query : Values;
  Form : Values;
  RemoteAddr : string }.

(** [event.Filter] *)
Record Filter : Type := mkFilter {
  Filter_Target : Target;
  KindNames : list string;
  Filter_OwnerName : string;
  Since : option Z;
  Until : option Z;
  Filter_Running : option bool;
  Filter_Permissions : list Permission }.

Definition CustomData : Type := list (list (string * string)).

(** [event.Opts], by the fields the callers set. *)
Record Opts : Type := mkOpts {
  Opts_Target : Target;
  Opts_Kind : PermissionScheme;
  Opts_Owner : Token;
  Opts_RemoteAddr : string;
  Opts_CustomData : CustomData;
  Opts_Allowed : AllowedPermission;
  Opts_AllowedCancel : AllowedPermission }.

(** [app.DeployOptions]: the [App] pointer and the other fields. *)
Record DeployOptions (App Rest : Type) : Type := mkDeployOptions {
  DeployOptions_App : option App;
  DeployOptions_Rest : Rest }.

(** ** The response being written *)

(** What [json.NewEncoder(w).Encode] is given. *)
Inductive Payload : Type :=
| PEvent (e : Event)
| PEvents (es : list Event)
| PKinds (ks : list Kind)
| PBlocks (bs : list Block).

(** An [http.ResponseWriter]: the status once the header is written, the
    header map and the documents encoded into the body. *)
Record Response : Type := mkResponse {
  status : option Z;
  header : list (string * string);
  body : list Payload }.

Definition emptyResponse : Response := mkResponse None [] [].

(** [w.WriteHeader(code)]: the first call fixes the status. *)
Definition WriteHeader (code : Z) (w : Response) : Response :=
  match status w with
  | None => mkResponse (Some code) (header w) (body w)
  | Some _ => w
  end.

(** [w.Header().Add(k, v)] *)
Definition Header_Add (k v : string) (w : Response) : Response :=
  mkResponse (status w) (header w ++ [(k, v)]) (body w).

(** A write to the body: it sends status 200 when no header was written. *)
Definition Body_Write (p : Payload) (w : Response) : Response :=
  mkResponse (match status w with None => Some StatusOK | s => s end)
             (header w) (body w ++ [p]).

(** ** The calls made to the collaborating packages *)

Inductive Call : Type :=
| CallGetByID (id : ObjectId)
| CallList (f : Filter)
| CallGetKinds
| CallListBlocks (active : option bool)
| CallNew (o : Opts)
| CallDone (evt : Event) (err : option error)
| CallTryCancel (evt : Event) (reason user : string)
| CallAddBlock (b : Block)
| CallRemoveBlock (id : ObjectId)
| CallSafeGet (name : string)
| CallCheck (t : Token) (s : PermissionScheme) (ctxs : list PermissionContext)
| CallEncode (p : Payload).

Definition isCheck (c : Call) : bool :=
  match c with CallCheck _ _ _ => true | _ => false end.
Definition isTryCancel (c : Call) : bool :=
  match c with CallTryCancel _ _ _ => true | _ => false end.
Definition isDone (c : Call) : bool :=
  match c with CallDone _ _ => true | _ => false end.
Definition isEncode (c : Call) : bool :=
  match c with CallEncode _ => true | _ => false end.
(** The calls that write to the store. *)
Definition isWrite (c : Call) : bool :=
  match c with
  | CallNew _ | CallDone _ _ | CallTryCancel _ _ _
  | CallAddBlock _ | CallRemoveBlock _ => true
  | _ => false
  end.

(** ** The collaborating packages, as interfaces *)

(** Package [permission]: the registry of schemes, the schemes the handlers
    name and the authorization predicate [Check]. *)
Class PermissionPkg : Type := {
  PermAppDeploy : PermissionScheme;
  PermEventBlockRead : PermissionScheme;
  PermEventBlockAdd : PermissionScheme;
  PermEventBlockRemove : PermissionScheme;
  PermEventBlockReadEvents : PermissionScheme;
  SafeGet : string -> result PermissionScheme;
  Check : Token -> PermissionScheme -> list PermissionContext -> bool }.

(** The helpers of package [api] and of package [event] that the handlers
    call on the request, the text of an error ([err.Error()]),
    [config.GetBool] and the error of [json.Encoder.Encode]. *)
Class ApiPkg : Type := {
  InputValue : Request -> string -> string;
  InputFields : Request -> Values;
  ParseInput_Filter : Request -> result Filter;
  ParseInput_Block : Request -> result Block;
  LoadKindNames : Values -> Filter -> Filter;
  PruneUserValues : Filter -> Filter;
  FormToCustomData : Values -> CustomData;
  event_Allowed : PermissionScheme -> AllowedPermission;
  TargetTypeEventBlock : string;
  Error_text : error -> string;
  config_GetBool : string -> bool * option error;
  Encode_error : Payload -> option error }.

(** Package [app] and the BSON codec of [app.DeployOptions]. *)
Class AppPkg : Type := {
  App : Type;
  DeployRest : Type;
  App_SuppressSensitiveEnvs : App -> App;
  bson_Unmarshal : list Byte.byte -> result (DeployOptions App DeployRest);
  bson_Marshal : DeployOptions App DeployRest -> list Byte.byte * option error }.

(** Package [event] over a store [S].  The queries read the store; the
    other operations may write it.  [AddBlock] is given a pointer to the
    block and fills it, so it returns the block too. *)
Class EventPkg (S : Type) : Type := mkEventPkg {
  GetByID : ObjectId -> S -> result Event;
  List : Filter -> S -> result (list Event);
  GetKinds : S -> result (list Kind);
  ListBlocks : option bool -> S -> result (list Block);
  New : Opts -> S -> result Event * S;
  Done : Event -> option error -> S -> option error * S;
  TryCancel : Event -> string -> string -> S -> option error * S;
  AddBlock : Block -> S -> (Block * option error) * S;
  RemoveBlock : ObjectId -> S -> option error * S }.

(** ** The handler monad *)

Record HState (S : Type) : Type := mkHState {
  store : S;
  calls : list Call;
  resp : Response }.

Definition initState {S : Type} (s : S) : HState S :=
  mkHState s [] emptyResponse.

(** A computation either yields a value or returns an error from the
    handler; both leave a state. *)
Definition M (S A : Type) : Type := HState S -> result A * HState S.

Definition ret {S A : Type} (a : A) : M S A := fun h => (Ok a, h).

(** [return err] *)
Definition fail {S A : Type} (e : error) : M S A := fun h => (Err e, h).

Definition bind {S A B : Type} (m : M S A) (k : A -> M S B) : M S B :=
  fun h => match m h with
           | (Ok a, h') => k a h'
           | (Err e, h') => (Err e, h')
           end.

(** Runs [m] and hands its error to the caller instead of returning it:
    [x, err := f()]. *)
Definition try {S A : Type} (m : M S A) : M S (result A) :=
  fun h => let (r, h') := m h in (Ok r, h').

(** [if err != nil { return err }] for an [error] value. *)
Definition check_nil {S : Type} (err : option error) : M S unit :=
  match err with None => ret tt | Some e => fail e end.

Declare Scope handler_scope.
Delimit Scope handler_scope with handler.
Notation "x <- m ;; k" := (bind m (fun x => k))
  (at level 100, m at next level, right associativity) : handler_scope.
Notation "m ;;; k" := (bind m (fun _ => k))
  (at level 100, right associativity) : handler_scope.
Open Scope handler_scope.

Definition log {S : Type} (c : Call) : M S unit :=
  fun h => (Ok tt, mkHState (store h) (calls h ++ [c]) (resp h)).

Definition onResponse {S : Type} (f : Response -> Response) : M S unit :=
  fun h => (Ok tt, mkHState (store h) (calls h) (f (resp h))).

(** A query of the store. *)
Definition query {S A : Type} (c : Call) (q : S -> result A) : M S A :=
  log c ;;; fun h => (q (store h), h).

(** An operation that may write the store and reports an [error]. *)
Definition update {S A : Type} (c : Call) (op : S -> A * S) : M S A :=
  log c ;;;
  fun h => let (a, s') := op (store h) in
           (Ok a, mkHState s' (calls h) (resp h)).

(** [r.URL.Query().Get(":uuid")] *)
Definition uuidOf (r : Request) : string := Values_Get (URL_Query r) ":uuid".

Section Handlers.

Context {S : Type}.
Context `{PP : PermissionPkg} `{AP : ApiPkg} `{DP : AppPkg} `{EP : EventPkg S}.

Definition permission_SafeGet (name : string) : M S PermissionScheme :=
  log (CallSafeGet name) ;;; fun h => (SafeGet name, h).

Definition permission_Check (t : Token) (s : PermissionScheme)
    (ctxs : list PermissionContext) : M S bool :=
  log (CallCheck t s ctxs) ;;; ret (Check t s ctxs).

(** [json.NewEncoder(w).Encode(v)] *)
Definition json_Encode (p : Payload) : M S unit :=
  log (CallEncode p) ;;;
  match Encode_error p with
  | Some e => fail e
  | None => onResponse (Body_Write p)
  end.

(** [suppressSensitiveEnvs]: the event is changed in place, so the function
    returns the event it leaves together with its [error]. *)
Definition suppressSensitiveEnvs (e : Event) : Event * option error :=
  if negb (fst (config_GetBool "events:suppress-sensitive-envs")) then (e, None)
  else if negb (String.eqb (Kind_Name (Event_Kind e)) (FullName PermAppDeploy))
          || Nat.eqb (length (Data (StartCustomData e))) 0
  then (e, None)
  else
    match bson_Unmarshal (Data (StartCustomData e)) with
    | Err err => (e, Some err)
    | Ok deployOptions =>
        match DeployOptions_App deployOptions with
        | None => (e, None)
        | Some a =>
            let deployOptions' :=
              mkDeployOptions (Some (App_SuppressSensitiveEnvs a))
                              (DeployOptions_Rest deployOptions) in
            let (data, err) := bson_Marshal deployOptions' in
            (mkEvent (UniqueID e) (Event_Target e) (Event_Kind e) (Event_Owner e)
                     (Event_RemoteAddr e) (StartTime e) (EndTime e) (Error e)
                     (mkRaw (Raw_Kind (StartCustomData e)) data)
                     (EndCustomData e) (Allowed e) (AllowedCancel e)
                     (Event_CancelInfo e),
             err)
        end
    end.

(** The loop of [eventList] over the events: it stops at the first error. *)
Fixpoint suppressAll (events : list Event) : result (list Event) :=
  match events with
  | [] => Ok []
  | e :: rest =>
      match suppressSensitiveEnvs e with
      | (_, Some err) => Err err
      | (e', None) =>
          match suppressAll rest with
          | Ok rest' => Ok (e' :: rest')
          | Err err => Err err
          end
      end
  end.

Definition lift {A : Type} (r : result A) : M S A := fun h => (r, h).

(** [filter.Permissions = perms] *)
Definition setPermissions (filter : Filter) (perms : list Permission) : Filter :=
  mkFilter (Filter_Target filter) (KindNames filter) (Filter_OwnerName filter)
           (Since filter) (Until filter) (Filter_Running filter) perms.

Definition eventList (r : Request) (t : Token) : M S unit :=
  filter <- lift (ParseInput_Filter r) ;;
  let filter := LoadKindNames (Form r) filter in
  let filter := PruneUserValues filter in
  perms <- lift (Permissions t) ;;
  let filter := setPermissions filter perms in
  events <- query (CallList filter) (List filter) ;;
  if Nat.eqb (length events) 0 then onResponse (WriteHeader StatusNoContent)
  else
    events <- lift (suppressAll events) ;;
    onResponse (Header_Add "Content-Type" "application/json") ;;;
    json_Encode (PEvents events).

Definition kindList (r : Request) (t : Token) : M S unit :=
  kinds <- query CallGetKinds GetKinds ;;
  if Nat.eqb (length kinds) 0 then onResponse (WriteHeader StatusNoContent)
  else
    onResponse (Header_Add "Content-Type" "application/json") ;;;
    json_Encode (PKinds kinds).

Definition eventInfo (r : Request) (t : Token) : M S unit :=
  let uuid := uuidOf r in
  if negb (IsObjectIdHex uuid) then
    fail (HTTP StatusBadRequest ("uuid parameter is not ObjectId: " ++ uuid))
  else
    let objID := ObjectIdHex uuid in
    found <- try (query (CallGetByID objID) (GetByID objID)) ;;
    match found with
    | Err err => fail (HTTP StatusNotFound (Error_text err))
    | Ok e =>
        scheme <- permission_SafeGet (Scheme (Allowed e)) ;;
        allowed <- permission_Check t scheme (Contexts (Allowed e)) ;;
        if negb allowed then fail ErrUnauthorized
        else
          onResponse (Header_Add "Content-Type" "application/json") ;;;
          let (e, err) := suppressSensitiveEnvs e in
          check_nil err ;;;
          json_Encode (PEvent e)
    end.

Definition eventCancel (r : Request) (t : Token) : M S unit :=
  let uuid := uuidOf r in
  if negb (IsObjectIdHex uuid) then
    fail (HTTP StatusBadRequest ("uuid parameter is not ObjectId: " ++ uuid))
  else
    let objID := ObjectIdHex uuid in
    found <- try (query (CallGetByID objID) (GetByID objID)) ;;
    match found with
    | Err err => fail (HTTP StatusNotFound (Error_text err))
    | Ok e =>
        let reason := InputValue r "reason" in
        if String.eqb reason "" then
          fail (HTTP StatusBadRequest "reason is mandatory")
        else
          scheme <- permission_SafeGet (Scheme (AllowedCancel e)) ;;
          allowed <- permission_Check t scheme (Contexts (AllowedCancel e)) ;;
          if negb allowed then fail ErrUnauthorized
          else
            err <- update (CallTryCancel e reason (GetUserName t))
                          (TryCancel e reason (GetUserName t)) ;;
            match err with
            | Some err =>
                if isErrNotCancelable err
                then fail (HTTP StatusBadRequest (Error_text err))
                else fail err
            | None => onResponse (WriteHeader StatusNoContent)
            end
    end.

(** The [active] pointer of [eventBlockList]: nil unless the parameter is
    given; the error of [ParseBool] is dropped. *)
Definition activeParam (r : Request) : option bool :=
  let activeStr := InputValue r "active" in
  if negb (String.eqb activeStr "")
  then Some (fst (ParseBool activeStr))
  else None.

Definition eventBlockList (r : Request) (t : Token) : M S unit :=
  allowed <- permission_Check t PermEventBlockRead [] ;;
  if negb allowed then fail ErrUnauthorized
  else
    let active := activeParam r in
    blocks <- query (CallListBlocks active) (ListBlocks active) ;;
    if Nat.eqb (length blocks) 0 then onResponse (WriteHeader StatusNoContent)
    else
      onResponse (Header_Add "Content-Type" "application/json") ;;;
      json_Encode (PBlocks blocks).

(** [evt.Target.Value = v] *)
Definition setTargetValue (evt : Event) (v : string) : Event :=
  mkEvent (UniqueID evt) (mkTarget (Target_Type (Event_Target evt)) v)
          (Event_Kind evt) (Event_Owner evt) (Event_RemoteAddr evt)
          (StartTime evt) (EndTime evt) (Error evt) (StartCustomData evt)
          (EndCustomData evt) (Allowed evt) (AllowedCancel evt)
          (Event_CancelInfo evt).

(** The result [error] of a handler body, as the deferred function sees it
    in the named result [err]. *)
Definition errOf {A : Type} (r : result A) : option error :=
  match r with Ok _ => None | Err e => Some e end.

(** The options of the audit event of [eventBlockAdd]. *)
Definition blockAddOpts (r : Request) (t : Token) : Opts :=
  mkOpts (mkTarget TargetTypeEventBlock "") PermEventBlockAdd t
         (RemoteAddr r) (FormToCustomData (InputFields r))
         (event_Allowed PermEventBlockReadEvents) (mkAllowed "" []).

(** The options of the audit event of [eventBlockRemove]. *)
Definition blockRemoveOpts (r : Request) (t : Token) (objID : ObjectId) : Opts :=
  mkOpts (mkTarget TargetTypeEventBlock (Hex objID)) PermEventBlockRemove t
         (RemoteAddr r) [[("name", "ID"); ("value", Hex objID)]]
         (event_Allowed PermEventBlockReadEvents) (mkAllowed "" []).

Definition eventBlockAdd (r : Request) (t : Token) : M S unit :=
  allowed <- permission_Check t PermEventBlockAdd [] ;;
  if negb allowed then fail ErrUnauthorized
  else
    block <- lift (ParseInput_Block r) ;;
    if String.eqb (Block_Reason block) "" then
      fail (HTTP StatusBadRequest "reason is required")
    else
      evt <- update (CallNew (blockAddOpts r t)) (New (blockAddOpts r t)) ;;
      evt <- lift evt ;;
      (* [return event.AddBlock(&block)] sets the named result [err] *)
      added <- update (CallAddBlock block) (AddBlock block) ;;
      let (block, err) := (added : Block * option error) in
      (* the deferred function, run as the handler returns *)
      let evt := setTargetValue evt (Hex (Block_ID block)) in
      update (CallDone evt err) (Done evt err) ;;;
      check_nil err.

Definition eventBlockRemove (r : Request) (t : Token) : M S unit :=
  allowed <- permission_Check t PermEventBlockRemove [] ;;
  if negb allowed then fail ErrUnauthorized
  else
    let uuid := uuidOf r in
    if negb (IsObjectIdHex uuid) then
      fail (HTTP StatusBadRequest ("uuid parameter is not ObjectId: " ++ uuid))
    else
      let objID := ObjectIdHex uuid in
      evt <- update (CallNew (blockRemoveOpts r t objID))
                    (New (blockRemoveOpts r t objID)) ;;
      evt <- lift evt ;;
      err <- update (CallRemoveBlock objID) (RemoveBlock objID) ;;
      (* either [return] sets the named result [err] *)
      let err : option error :=
        if isErrActiveEventBlockNotFound err
        then match err with
             | Some e => Some (HTTP StatusNotFound (Error_text e))
             | None => None
             end
        else err in
      (* the deferred function, run as the handler returns *)
      update (CallDone evt err) (Done evt err) ;;;
      check_nil err.

End Handlers.

(** ** The event engine *)

Module Engine.

(** Modelled from the spec: package [event] (the lock and admission engine,
    the block policy engine, the cancellation protocol and the query
    engine) is not among the sources; the definitions of this module follow
    sections 3 and 4 of the specification.  The shared store is the list of
    events and the list of blocks, with the clock and the counter from
    which identities are drawn; every operation is one atomic access. *)
Record Store : Type := mkStore {
  events : list Event;
  blocks : list Block;
  clock : Z;
  nextID : N }.

Definition emptyStore : Store := mkStore [] [] 0 0.

(** The [k] low bytes of [n], most significant first. *)
Fixpoint bytesBE (k : nat) (n : N) : string :=
  match k with
  | O => EmptyString
  | Datatypes.S k' => bytesBE k' (n / 256) ++ String (ascii_of_N (n mod 256)) EmptyString
  end.

Definition newID (n : N) : ObjectId := bytesBE 12 n.

Definition Target_eqb (a b : Target) : bool :=
  String.eqb (Target_Type a) (Target_Type b)
  && String.eqb (Target_Value a) (Target_Value b).

(** A pattern field matches when it is empty or equal to the candidate. *)
Definition fieldMatches (pattern candidate : string) : bool :=
  String.eqb pattern "" || String.eqb pattern candidate.

(** Modelled from the spec: [Matches(block, kind, owner, target)] of the
    block policy engine; the four fields match independently. *)
Definition Matches (b : Block) (kind owner : string) (target : Target) : bool :=
  fieldMatches (KindName b) kind
  && fieldMatches (OwnerName b) owner
  && fieldMatches (Target_Type (Block_Target b)) (Target_Type target)
  && fieldMatches (Target_Value (Block_Target b)) (Target_Value target).

(** Some active block matches the candidate. *)
Definition isBlocked (s : Store) (kind owner : string) (target : Target) : bool :=
  existsb (fun b => Active b && Matches b kind owner target) (blocks s).

(** Some running event holds the target. *)
Definition isLocked (s : Store) (target : Target) : bool :=
  existsb (fun e => Running e && Target_eqb (Event_Target e) target) (events s).

Definition emptyRaw : Raw := mkRaw Byte.x00 [].

Section Operations.

(** The encoding of custom data, the text of an error and the predicate
    "the permission context satisfies the descriptor" belong to the
    collaborators. *)
Variable marshalCustom : CustomData -> Raw.
Variable errorText : error -> string.
Variable satisfies : list Permission -> AllowedPermission -> bool.

(** Modelled from the spec: [Open] of the lock and admission engine
    ([event.New]): blocked first, then locked, else the event is persisted
    running. *)
Definition Open (o : Opts) (s : Store) : result Event * Store :=
  let kind := FullName (Opts_Kind o) in
  let owner := GetUserName (Opts_Owner o) in
  if isBlocked s kind owner (Opts_Target o) then (Err Blocked, s)
  else if isLocked s (Opts_Target o) then (Err Locked, s)
  else
    let e := mkEvent (newID (nextID s)) (Opts_Target o) (mkKind kind)
               (mkOwner owner) (Opts_RemoteAddr o) (clock s) None None
               (marshalCustom (Opts_CustomData o)) emptyRaw
               (Opts_Allowed o) (Opts_AllowedCancel o) None in
    (Ok e, mkStore (e :: events s) (blocks s) (clock s + 1) (nextID s + 1)%N).

Definition closeEvent (now : Z) (err : option error) (endData : Raw) (e : Event) : Event :=
  mkEvent (UniqueID e) (Event_Target e) (Event_Kind e) (Event_Owner e)
          (Event_RemoteAddr e) (StartTime e) (Some now)
          (option_map errorText err) (StartCustomData e) endData
          (Allowed e) (AllowedCancel e) (Event_CancelInfo e).

(** Modelled from the spec: [Close] ([Event.Done]): sets EndTime, Error and
    EndCustomData on the record of the handle, which clears Running. *)
Definition Close (evt : Event) (err : option error) (endData : Raw) (s : Store)
    : option error * Store :=
  (None,
   mkStore (map (fun e => if String.eqb (UniqueID e) (UniqueID evt)
                          then closeEvent (clock s) err endData e else e)
                (events s))
           (blocks s) (clock s + 1) (nextID s)).

(** Modelled from the spec: [GetByID]: the event of that identity, or
    NotFound. *)
Definition GetByID (id : ObjectId) (s : Store) : result Event :=
  match find (fun e => String.eqb (UniqueID e) id) (events s) with
  | Some e => Ok e
  | None => Err NotFound
  end.

Definition setCancelInfo (c : CancelInfo) (e : Event) : Event :=
  mkEvent (UniqueID e) (Event_Target e) (Event_Kind e) (Event_Owner e)
          (Event_RemoteAddr e) (StartTime e) (EndTime e) (Error e)
          (StartCustomData e) (EndCustomData e) (Allowed e) (AllowedCancel e)
          (Some c).

Definition hasCancelInfo (e : Event) : bool :=
  match Event_CancelInfo e with Some _ => true | None => false end.

(** Modelled from the spec: [RequestCancel] ([Event.TryCancel]): only a
    running event without a pending request, and only with a reason. *)
Definition RequestCancel (evt : Event) (reason requestedBy : string) (s : Store)
    : option error * Store :=
  if String.eqb reason "" then (Some (InvalidInput "reason is required"), s)
  else
    match GetByID (UniqueID evt) s with
    | Err err => (Some err, s)
    | Ok e =>
        if negb (Running e) || hasCancelInfo e then (Some ErrNotCancelable, s)
        else
          let c := mkCancelInfo true reason requestedBy (clock s) false in
          (None,
           mkStore (map (fun e' => if String.eqb (UniqueID e') (UniqueID evt)
                                   then setCancelInfo c e' else e')
                        (events s))
                   (blocks s) (clock s + 1) (nextID s))
    end.

(** Modelled from the spec: [AddBlock]: the reason is required; the block
    starts active. *)
Definition AddBlock (b : Block) (s : Store) : (Block * option error) * Store :=
  if String.eqb (Block_Reason b) ""
  then ((b, Some (InvalidInput "reason is required")), s)
  else
    let b' := mkBlock (newID (nextID s)) (clock s) None (KindName b)
                (OwnerName b) (Block_Target b) (Block_Reason b) in
    ((b', None), mkStore (events s) (b' :: blocks s) (clock s + 1) (nextID s + 1)%N).

Definition endBlock (now : Z) (b : Block) : Block :=
  mkBlock (Block_ID b) (Block_StartTime b) (Some now) (KindName b)
          (OwnerName b) (Block_Target b) (Block_Reason b).

(** Modelled from the spec: [RemoveBlock]: an active block of that identity
    gets its EndTime. *)
Definition RemoveBlock (id : ObjectId) (s : Store) : option error * Store :=
  if existsb (fun b => Active b && String.eqb (Block_ID b) id) (blocks s)
  then (None,
        mkStore (events s)
                (map (fun b => if Active b && String.eqb (Block_ID b) id
                               then endBlock (clock s) b else b)
                     (blocks s))
                (clock s + 1) (nextID s))
  else (Some (ErrActiveEventBlockNotFound (Hex id)), s).

(** Insertion into a list ordered by decreasing key. *)
Fixpoint insertDesc {A : Type} (key : A -> Z) (x : A) (l : list A) : list A :=
  match l with
  | [] => [x]
  | y :: rest => if key y <? key x then x :: l else y :: insertDesc key x rest
  end.

Definition sortDesc {A : Type} (key : A -> Z) (l : list A) : list A :=
  fold_right (insertDesc key) [] l.

(** Modelled from the spec: [ListBlocks]: all blocks, or the active or the
    inactive ones, most recent first. *)
Definition ListBlocks (active : option bool) (s : Store) : result (list Block) :=
  Ok (sortDesc Block_StartTime
        (filter (fun b => match active with
                          | None => true
                          | Some a => Bool.eqb (Active b) a
                          end)
                (blocks s))).

(** The predicates of a filter; an empty field constrains nothing. *)
Definition filterMatches (f : Filter) (e : Event) : bool :=
  fieldMatches (Target_Type (Filter_Target f)) (Target_Type (Event_Target e))
  && fieldMatches (Target_Value (Filter_Target f)) (Target_Value (Event_Target e))
  && (match KindNames f with
      | [] => true
      | names => existsb (String.eqb (Kind_Name (Event_Kind e))) names
      end)
  && fieldMatches (Filter_OwnerName f) (Owner_Name (Event_Owner e))
  && (match Since f with None => true | Some t => t <=? StartTime e end)
  && (match Until f with None => true | Some t => StartTime e <=? t end)
  && (match Filter_Running f with None => true | Some r => Bool.eqb (Running e) r end).

(** Modelled from the spec: [List] of the query engine: the events that
    match every predicate of the filter and whose Allowed descriptor the
    filter's permission context satisfies, most recent first. *)
Definition List (f : Filter) (s : Store) : result (list Event) :=
  Ok (sortDesc StartTime
        (filter (fun e => filterMatches f e
                          && satisfies (Filter_Permissions f) (Allowed e))
                (events s))).

Fixpoint dedup (l : list string) : list string :=
  match l with
  | [] => []
  | x :: rest => if existsb (String.eqb x) rest then dedup rest else x :: dedup rest
  end.

(** Modelled from the spec: [GetKinds]: the distinct kinds recorded. *)
Definition GetKinds (s : Store) : result (list Kind) :=
  Ok (map mkKind (dedup (map (fun e => Kind_Name (Event_Kind e)) (events s)))).

(** The engine behind the handlers' interface. *)
Definition pkg : EventPkg Store :=
  mkEventPkg GetByID List GetKinds ListBlocks Open
             (fun evt err => Close evt err emptyRaw)
             RequestCancel AddBlock RemoveBlock.

(** *** Concurrent callers *)

(** The outcome of one [Open]. *)
Definition succeeded (r : result Event) : bool :=
  match r with Ok _ => true | Err _ => false end.
Definition failedLocked (r : result Event) : bool :=
  match r with Err Locked => true | _ => false end.

(** A configuration: the callers whose [Open] has not reached the store
    yet, the store, and the outcomes handed back so far. *)
Record Config : Type := mkConfig {
  pending : list Opts;
  shared : Store;
  outcomes : list (Opts * result Event) }.

(** One step: any pending caller's [Open] reaches the store, runs there
    atomically, and the caller has its outcome at once. *)
Inductive step : Config -> Config -> Prop :=
| step_open : forall before o after s done,
    step (mkConfig (before ++ o :: after) s done)
         (mkConfig (before ++ after) (snd (Open o s))
                   ((o, fst (Open o s)) :: done)).

Inductive steps : Config -> Config -> Prop :=
| steps_refl : forall c, steps c c
| steps_step : forall c1 c2 c3, step c1 c2 -> steps c2 c3 -> steps c1 c3.

Definition countOutcomes (p : result Event -> bool)
    (l : list (Opts * result Event)) : nat :=
  length (filter (fun x => p (snd x)) l).

(** The handle of the caller that succeeded, if any. *)
Fixpoint winner (l : list (Opts * result Event)) : option Event :=
  match l with
  | [] => None
  | (_, Ok e) :: _ => Some e
  | _ :: rest => winner rest
  end.

(** The target is held by the event [evt] alone. *)
Definition heldBy (s : Store) (T : Target) (evt : Event) : Prop :=
  isLocked s T = true
  /\ forall e, In e (events s) -> Running e = true ->
               Target_eqb (Event_Target e) T = true ->
               UniqueID e = UniqueID evt.

(** What holds of every configuration that [n] callers for the target [T]
    can reach from the store [s0]: either no [Open] has run and the target
    is free, or one caller succeeded, the others that ran were refused with
    Locked, and the target is held by the event of the one that succeeded. *)
Definition admission (T : Target) (s0 : Store) (n : nat) (c : Config) : Prop :=
  (forall o, In o (pending c) ->
             Opts_Target o = T
             /\ isBlocked s0 (FullName (Opts_Kind o))
                          (GetUserName (Opts_Owner o)) T = false)
  /\ blocks (shared c) = blocks s0
  /\ (length (pending c) + length (outcomes c) = n)%nat
  /\ ((outcomes c = [] /\ isLocked (shared c) T = false)
      \/ (countOutcomes succeeded (outcomes c) = 1%nat
          /\ (countOutcomes failedLocked (outcomes c) + 1
              = length (outcomes c))%nat
          /\ exists evt, winner (outcomes c) = Some evt
                         /\ heldBy (shared c) T evt)).

End Operations.

End Engine.

(** ** A concrete instance of the interfaces, for running the handlers *)

Module Fixture.

Definition grants (ps : list Permission) (name : string) : bool :=
  existsb (fun p => String.eqb (FullName (Perm_Scheme p)) name) ps.

Definition permissions : PermissionPkg := {|
  PermAppDeploy := mkScheme "app.deploy";
  PermEventBlockRead := mkScheme "event-block.read";
  PermEventBlockAdd := mkScheme "event-block.add";
  PermEventBlockRemove := mkScheme "event-block.remove";
  PermEventBlockReadEvents := mkScheme "event-block.read.events";
  SafeGet := fun name => Ok (mkScheme name);
  Check := fun t s _ =>
    match Permissions t with
    | Ok ps => grants ps (FullName s)
    | Err _ => false
    end |}.

(** The permission context [ps] satisfies the descriptor [al]. *)
Definition satisfies (ps : list Permission) (al : AllowedPermission) : bool :=
  grants ps (Scheme al).

Definition errorText (e : error) : string :=
  match e with
  | HTTP _ m => m
  | ErrUnauthorized => "unauthorized"
  | ErrNotCancelable => "event is not cancelable"
  | ErrActiveEventBlockNotFound id => "active event block not found: " ++ id
  | Locked => "event locked"
  | Blocked => "event blocked"
  | InvalidInput m => m
  | NotFound => "event not found"
  | SyntaxError fn num => fn ++ ": invalid syntax"
  | Failure m => m
  end.

Definition parseBlock (r : Request) : result Block :=
  Ok (mkBlock "" 0 None (Values_Get (Form r) "kindname")
              (Values_Get (Form r) "ownername")
              (mkTarget (Values_Get (Form r) "targettype")
                        (Values_Get (Form r) "targetvalue"))
              (Values_Get (Form r) "reason")).

Definition parseFilter (r : Request) : result Filter :=
  Ok (mkFilter (mkTarget (Values_Get (Form r) "target.type")
                         (Values_Get (Form r) "target.value"))
               [] (Values_Get (Form r) "ownername") None None None []).

Definition api : ApiPkg := {|
  InputValue := fun r k => Values_Get (Form r) k;
  InputFields := Form;
  ParseInput_Filter := parseFilter;
  ParseInput_Block := parseBlock;
  LoadKindNames := fun _ f => f;
  PruneUserValues := fun f => f;
  FormToCustomData :=
    map (fun kv => [("name", fst kv);
                    ("value", match snd kv with [] => "" | v :: _ => v end)]);
  event_Allowed := fun s => mkAllowed (FullName s) [];
  TargetTypeEventBlock := "event-block";
  Error_text := errorText;
  config_GetBool := fun _ => (true, None);
  Encode_error := fun _ => None |}.

(** A deploy payload here is the list of its bytes; a payload whose first
    byte is zero has no App, and suppression blanks the bytes. *)
Definition apps : AppPkg := {|
  App := list Byte.byte;
  DeployRest := unit;
  App_SuppressSensitiveEnvs := map (fun _ => Byte.x2a);
  bson_Unmarshal := fun data =>
    match data with
    | Byte.x00 :: _ => Ok (mkDeployOptions None tt)
    | _ => Ok (mkDeployOptions (Some data) tt)
    end;
  bson_Marshal := fun d =>
    match DeployOptions_App d with
    | Some a => (a, None)
    | None => ([Byte.x00], None)
    end |}.

Definition marshalCustom (c : CustomData) : Raw :=
  mkRaw Byte.x04 (map (fun _ => Byte.x01) c).

Definition engine : EventPkg Engine.Store :=
  Engine.pkg marshalCustom errorText satisfies.

Definition admin : Token :=
  mkToken "admin"
    (Ok (map (fun n => mkPermission (mkScheme n) (mkContext "global" ""))
             ["app.deploy"; "event-block.read"; "event-block.add";
              "event-block.remove"; "event-block.read.events"])).

Definition guest : Token := mkToken "guest" (Ok []).

Definition uuid1 : string := "5f2b0c1d9e8a7b6c5d4e3f20".

Definition request (uuid : string) (form : Values) : Request :=
  mkRequest [(":uuid", [uuid])] form "10.0.0.1".

(** A deploy of app [foo] by [admin], running, as the store holds it. *)
Definition deploy1 : Event :=
  mkEvent (ObjectIdHex uuid1) (mkTarget "app" "foo") (mkKind "app.deploy")
          (mkOwner "admin") "10.0.0.1" 7 None None
          (mkRaw Byte.x03 [Byte.x01; Byte.x02]) Engine.emptyRaw
          (mkAllowed "app.deploy" []) (mkAllowed "app.deploy" []) None.

Definition store1 : Engine.Store := Engine.mkStore [deploy1] [] 8 1.

Definition uuid2 : string := "5f2b0c1d9e8a7b6c5d4e3f21".

(** An earlier deploy of app [bar], closed. *)
Definition deploy2 : Event :=
  mkEvent (ObjectIdHex uuid2) (mkTarget "app" "bar") (mkKind "app.deploy")
          (mkOwner "admin") "10.0.0.1" 3 (Some 5) None
          (mkRaw Byte.x03 [Byte.x00]) Engine.emptyRaw
          (mkAllowed "app.deploy" []) (mkAllowed "app.deploy" []) None.

Definition store2 : Engine.Store := Engine.mkStore [deploy1; deploy2] [] 8 2.

(** The handlers over this instance. *)
Definition info := eventInfo (PP := permissions) (AP := api) (DP := apps) (EP := engine).
Definition cancel := eventCancel (PP := permissions) (AP := api) (EP := engine).
Definition list := eventList (PP := permissions) (AP := api) (DP := apps) (EP := engine).
Definition kinds := kindList (AP := api) (EP := engine).
Definition blockList := eventBlockList (PP := permissions) (AP := api) (EP := engine).
Definition blockAdd := eventBlockAdd (PP := permissions) (AP := api) (EP := engine).
Definition blockRemove := eventBlockRemove (PP := permissions) (AP := api) (EP := engine).
Definition suppress := suppressSensitiveEnvs (PP := permissions) (AP := api) (DP := apps).

(** Two callers that deploy app [foo]. *)
Definition deployBy (t : Token) : Opts :=
  mkOpts (mkTarget "app" "foo") (mkScheme "app.deploy") t "10.0.0.1" []
         (mkAllowed "app.deploy" []) (mkAllowed "app.deploy" []).

Definition raced : Engine.Config :=
  let s1 := Engine.Open marshalCustom (deployBy guest) Engine.emptyStore in
  let s2 := Engine.Open marshalCustom (deployBy admin) (snd s1) in
  Engine.mkConfig [] (snd s2) [(deployBy admin, fst s2); (deployBy guest, fst s1)].


(** A block with no pattern, in force: it forbids every operation. *)
Definition freeze : Block :=
  mkBlock (Engine.newID 7) 2 None "" "" (mkTarget "" "") "maintenance".

Definition frozen : Engine.Store := Engine.mkStore [deploy1] [freeze] 8 8.

End Fixture.

(** ** The helpers of the test suite of package app (app/suite_test.go) *)

Module Suite.

(** A value held in an [interface{}]: an [int], or a value of another
    dynamic type (by its text). *)
Inductive value : Type :=
| VInt (n : Z)
| VOther (text : string).

(** [%d] of an [int]. *)
Definition formatInt (n : Z) : string := NilZero.string_of_int (Z.to_int n).

(** [greaterChecker.Check] *)
Definition greaterChecker_Check (params : list value) (names : list string)
    : bool * string :=
  match params with
  | [p0; p1] =>
      match p0 with
      | VOther _ => (false, "first parameter should be int")
      | VInt n1 =>
          match p1 with
          | VOther _ => (false, "second parameter should be int")
          | VInt n2 =>
              if n1 >? n2 then (true, "")
              else (false, formatInt n1 ++ " is not greater than " ++ formatInt n2)
          end
      end
  | _ => (false, "you should pass two values to compare")
  end.

(** [appTypes.Plan], by the fields the suite sets. *)
Record Plan : Type := mkPlan {
  Plan_Name : string;
  Memory : Z;
  Swap : Z;
  CpuShare : Z;
  Default : bool }.

(** The fields of the suite [S] that the plan mocks read. *)
Record S : Type := mkS {
  plan : Plan;
  defaultPlan : Plan }.





End Suite.

(** ** Properties of the engine *)

Module EngineFacts.
Import Engine.

Lemma insertDesc_In {A : Type} (key : A -> Z) (x y : A) (l : list A) :
  In y (insertDesc key x l) <-> y = x \/ In y l.
Proof.
  induction l as [|z l IH]; simpl.
  - intuition congruence.
  - destruct (key z <? key x); simpl.
    + intuition congruence.
    + rewrite IH. intuition congruence.
Qed.

Lemma sortDesc_In {A : Type} (key : A -> Z) (y : A) (l : list A) :
  In y (sortDesc key l) <-> In y l.
Proof.
  unfold sortDesc. induction l as [|x l IH]; simpl.
  - reflexivity.
  - rewrite insertDesc_In, IH. intuition congruence.
Qed.

(** The lookup of an identity that no stored event has reports NotFound. *)
Lemma GetByID_missing (id : ObjectId) (st : Store) :
  (forall e, In e (events st) -> UniqueID e <> id) ->
  GetByID id st = Err NotFound.
Proof.
  intro Hnone. unfold GetByID.
  destruct (find (fun e => String.eqb (UniqueID e) id) (events st)) as [e|] eqn:Hfind;
    [|reflexivity].
  apply find_some in Hfind. destruct Hfind as [Hin Heq].
  apply String.eqb_eq in Heq. elim (Hnone e Hin Heq).
Qed.

(** A closed event, or one with a pending request, is not cancelable, and
    the refusal writes nothing. *)
Lemma RequestCancel_refused (evt e : Event)
    (reason requestedBy : string) (st : Store) :
  reason <> "" ->
  GetByID (UniqueID evt) st = Ok e ->
  Running e = false \/ hasCancelInfo e = true ->
  RequestCancel evt reason requestedBy st = (Some ErrNotCancelable, st).
Proof.
  intros Hreason Hget Hstate. unfold RequestCancel.
  rewrite (proj2 (String.eqb_neq reason "") Hreason), Hget.
  destruct Hstate as [-> | ->]; [reflexivity|].
  rewrite orb_true_r. reflexivity.
Qed.

Section Admission.

Variable marshalCustom : CustomData -> Raw.
Variable errorText : error -> string.

Lemma Target_eqb_refl (T : Target) : Target_eqb T T = true.
Proof. unfold Target_eqb. rewrite !String.eqb_refl. reflexivity. Qed.

Lemma isBlocked_blocks (s s' : Store) (kind owner : string) (T : Target) :
  blocks s = blocks s' -> isBlocked s kind owner T = isBlocked s' kind owner T.
Proof. unfold isBlocked. intros ->. reflexivity. Qed.

(** A refused [Open] leaves the store as it was. *)
Lemma Open_refused (o : Opts) (s : Store) (err : error) :
  fst (Open marshalCustom o s) = Err err -> snd (Open marshalCustom o s) = s.
Proof.
  unfold Open.
  destruct (isBlocked s _ _ _); [reflexivity|].
  destruct (isLocked s _); [reflexivity|]. simpl. discriminate.
Qed.

Lemma Open_locked (o : Opts) (s : Store) :
  isBlocked s (FullName (Opts_Kind o)) (GetUserName (Opts_Owner o)) (Opts_Target o) = false ->
  isLocked s (Opts_Target o) = true ->
  Open marshalCustom o s = (Err Locked, s).
Proof. unfold Open. intros -> ->. reflexivity. Qed.

Lemma Open_free (o : Opts) (s : Store) :
  isBlocked s (FullName (Opts_Kind o)) (GetUserName (Opts_Owner o)) (Opts_Target o) = false ->
  isLocked s (Opts_Target o) = false ->
  exists e,
    Open marshalCustom o s
      = (Ok e, mkStore (e :: events s) (blocks s) (clock s + 1) (nextID s + 1)%N)
    /\ Running e = true /\ Event_Target e = Opts_Target o.
Proof.
  unfold Open. intros -> ->. eexists. split; [reflexivity|]. split; reflexivity.
Qed.

Lemma isLocked_false_In (s : Store) (T : Target) (e : Event) :
  isLocked s T = false -> In e (events s) -> Running e = true ->
  Target_eqb (Event_Target e) T = false.
Proof.
  unfold isLocked. intros Hfree Hin Hrun.
  destruct (Target_eqb (Event_Target e) T) eqn:Heq; [|reflexivity].
  assert (Hex : existsb (fun e0 => Running e0 && Target_eqb (Event_Target e0) T)
                        (events s) = true).
  { apply existsb_exists. exists e. rewrite Hrun, Heq. split; [exact Hin | reflexivity]. }
  congruence.
Qed.

Lemma step_admission (T : Target) (s0 : Store) (n : nat) (c c' : Config) :
  step marshalCustom c c' -> admission T s0 n c -> admission T s0 n c'.
Proof.
  intros Hstep (Hpend & Hblocks & Hlen & Hcases).
  destruct Hstep as [before o after s done]. simpl in *.
  destruct (Hpend o) as [HT Hnb]; [apply in_elt|].
  assert (Hnb' : isBlocked s (FullName (Opts_Kind o)) (GetUserName (Opts_Owner o))
                   (Opts_Target o) = false).
  { rewrite HT, (isBlocked_blocks s s0 _ _ _ Hblocks). exact Hnb. }
  assert (Hpend' : forall o', In o' (before ++ after) ->
             Opts_Target o' = T
             /\ isBlocked s0 (FullName (Opts_Kind o'))
                  (GetUserName (Opts_Owner o')) T = false).
  { intros o' Hin. apply Hpend. apply in_app_or in Hin. apply in_or_app.
    destruct Hin; [left | right; right]; assumption. }
  assert (Hlen' : (length (before ++ after) + Datatypes.S (length done) = n)%nat).
  { rewrite <- Hlen. rewrite !length_app. simpl. lia. }
  destruct Hcases as [[Hnone Hfree] | (Hone & Hothers & evt & Hwin & Hheld & Honly)].
  - (* the first Open to reach the store takes the target *)
    subst done. rewrite <- HT in Hfree.
    destruct (Open_free o s Hnb' Hfree) as (e & Hopen & Hrun & Htarget).
    rewrite Hopen. simpl. unfold admission. simpl.
    split; [exact Hpend'|]. split; [exact Hblocks|]. split; [exact Hlen'|].
    right. split; [reflexivity|]. split; [reflexivity|].
    exists e. split; [reflexivity|]. split.
    + unfold isLocked. simpl. rewrite Hrun, Htarget, HT, Target_eqb_refl. reflexivity.
    + simpl. intros e' [<- | Hin] Hrun' Ht'; [reflexivity|].
      rewrite HT in Hfree.
      rewrite (isLocked_false_In s T e' Hfree Hin Hrun') in Ht'. discriminate.
  - (* the target is held: the caller is refused at once *)
    rewrite <- HT in Hheld.
    rewrite (Open_locked o s Hnb' Hheld). simpl. unfold admission. simpl.
    split; [exact Hpend'|]. split; [exact Hblocks|]. split; [exact Hlen'|].
    right. unfold countOutcomes in *. simpl. split; [exact Hone|]. split; [lia|].
    exists evt. rewrite HT in Hheld. split; [exact Hwin|]. split; assumption.
Qed.

Lemma steps_admission (T : Target) (s0 : Store) (n : nat) (c c' : Config) :
  steps marshalCustom c c' -> admission T s0 n c -> admission T s0 n c'.
Proof.
  induction 1 as [c | c1 c2 c3 Hstep _ IH]; intro Hinv.
  - exact Hinv.
  - apply IH. exact (step_admission Hstep Hinv).
Qed.

(** Closing the event that holds the target frees the target. *)
Lemma Close_frees (s : Store) (T : Target) (evt : Event)
    (err : option error) (endData : Raw) :
  heldBy s T evt ->
  isLocked (snd (Close errorText evt err endData s)) T = false.
Proof.
  intros [_ Honly]. unfold Close, isLocked. simpl.
  destruct (existsb _ _) eqn:Hex; [|reflexivity].
  apply existsb_exists in Hex. destruct Hex as (e' & Hin & Hlive).
  apply in_map_iff in Hin. destruct Hin as (e & <- & Hin).
  apply andb_true_iff in Hlive. destruct Hlive as [Hrun Ht].
  destruct (String.eqb (UniqueID e) (UniqueID evt)) eqn:Hid.
  - discriminate.
  - apply String.eqb_neq in Hid. elim Hid. apply Honly; assumption.
Qed.

(** Every set of pending callers can be run to the end. *)
Lemma steps_complete (callers : list Opts) (s : Store)
    (done : list (Opts * result Event)) :
  exists final, steps marshalCustom (mkConfig callers s done) final
                /\ pending final = [].
Proof.
  revert s done. induction callers as [|o rest IH]; intros s done.
  - eexists. split; [apply steps_refl | reflexivity].
  - destruct (IH (snd (Open marshalCustom o s))
                 ((o, fst (Open marshalCustom o s)) :: done))
      as (final & Hsteps & Hend).
    exists final. split; [|exact Hend].
    eapply steps_step; [|exact Hsteps].
    exact (step_open marshalCustom [] o rest s done).
Qed.

(** C1: mutual exclusion of concurrent [Open] calls.  Let [n >= 2] callers
    open the same target [T], free and not blocked for them in the store
    they start from.  The calls can all be run, and in whatever order they
    reach the store, when none is pending any more exactly one has
    succeeded and the other [n - 1] have been refused with Locked.  Each
    caller has its outcome in the step in which its call reaches the store
    (a refusal waits for nothing and is not tried again).  After the
    caller that succeeded closes its event, a further [Open] of [T]
    succeeds. *)
Theorem concurrent_Open_mutual_exclusion :
  forall (T : Target) (callers : list Opts) (s0 : Store),
    (2 <= length callers)%nat ->
    (forall o, In o callers ->
       Opts_Target o = T
       /\ isBlocked s0 (FullName (Opts_Kind o)) (GetUserName (Opts_Owner o)) T
          = false) ->
    isLocked s0 T = false ->
    (exists final, steps marshalCustom (mkConfig callers s0 []) final
                   /\ pending final = [])
    /\ forall final : Config,
        steps marshalCustom (mkConfig callers s0 []) final ->
        pending final = [] ->
        countOutcomes succeeded (outcomes final) = 1%nat
        /\ countOutcomes failedLocked (outcomes final) = (length callers - 1)%nat
        /\ length (outcomes final) = length callers
        /\ exists evt,
             winner (outcomes final) = Some evt
             /\ forall (err : option error) (endData : Raw) (next : Opts),
                  Opts_Target next = T ->
                  isBlocked s0 (FullName (Opts_Kind next))
                            (GetUserName (Opts_Owner next)) T = false ->
                  succeeded
                    (fst (Open marshalCustom next
                            (snd (Close errorText evt err endData (shared final)))))
                  = true.
Proof.
  intros T callers s0 Hn Hcallers Hfree.
  split; [apply steps_complete|].
  intros final Hsteps Hend.
  assert (Hinit : admission T s0 (length callers) (mkConfig callers s0 [])).
  { unfold admission. simpl. split; [exact Hcallers|]. split; [reflexivity|].
    split; [lia|]. left. split; [reflexivity | exact Hfree]. }
  destruct (steps_admission Hsteps Hinit) as (_ & Hblocks & Hlen & Hcases).
  rewrite Hend in Hlen. simpl in Hlen.
  destruct Hcases as [[Hnone _] | (Hone & Hothers & evt & Hwin & Hheld)].
  - rewrite Hnone in Hlen. simpl in Hlen. lia.
  - split; [exact Hone|]. split; [lia|]. split; [exact Hlen|].
    exists evt. split; [exact Hwin|].
    intros err endData next HT Hnb.
    pose proof (Close_frees err endData Hheld) as Hfreed.
    set (s' := snd (Close errorText evt err endData (shared final))) in *.
    assert (Hnb' : isBlocked s' (FullName (Opts_Kind next))
                     (GetUserName (Opts_Owner next)) (Opts_Target next) = false).
    { rewrite HT. rewrite (isBlocked_blocks s' s0); [exact Hnb|].
      subst s'. simpl. exact Hblocks. }
    rewrite <- HT in Hfreed.
    destruct (Open_free next s' Hnb' Hfreed) as (e & Hopen & _).
    rewrite Hopen. reflexivity.
Qed.

End Admission.

End EngineFacts.

(** ** Properties of the handlers *)

Lemma ObjectIdHex_defined (s : string) :
  IsObjectIdHex s = true -> hexDecode s = Some (ObjectIdHex s).
Proof.
  unfold IsObjectIdHex, ObjectIdHex.
  destruct (Nat.eqb (String.length s) 24); simpl; [|discriminate].
  destruct (hexDecode s); [reflexivity | discriminate].
Qed.

Ltac unfold_monad :=
  cbv [bind try query update log lift fail ret check_nil onResponse
       permission_Check permission_SafeGet json_Encode initState];
  simpl.

Ltac close_cases :=
  repeat match goal with |- _ /\ _ => split end;
  simpl; intros;
  try (eexists; reflexivity); try reflexivity; try congruence.

Lemma eqb_empty_false (s : string) : s <> "" -> String.eqb s "" = false.
Proof. intro H. apply String.eqb_neq. exact H. Qed.

Section HandlerProperties.

Context {S : Type}.
Context `{PP : PermissionPkg} `{AP : ApiPkg} `{DP : AppPkg} `{EP : EventPkg S}.

(** C9: in [eventCancel] the empty-reason check comes before the
    AllowedCancel authorization: a request on an existing event with an
    empty reason gets the 400 "reason is mandatory" outcome whatever the
    authorization predicate answers, and the only call made is the lookup,
    so the predicate is never consulted. *)
Theorem eventCancel_reason_before_authorization :
  forall (r : Request) (t : Token) (s : S) (e : Event),
    IsObjectIdHex (uuidOf r) = true ->
    GetByID (ObjectIdHex (uuidOf r)) s = Ok e ->
    InputValue r "reason" = "" ->
    eventCancel r t (initState s)
      = (Err (HTTP StatusBadRequest "reason is mandatory"),
         mkHState s [CallGetByID (ObjectIdHex (uuidOf r))] emptyResponse)
    /\ existsb isCheck (calls (snd (eventCancel r t (initState s)))) = false.
Proof.
  intros r t s e Hhex Hget Hreason.
  assert (Hrun : eventCancel r t (initState s)
      = (Err (HTTP StatusBadRequest "reason is mandatory"),
         mkHState s [CallGetByID (ObjectIdHex (uuidOf r))] emptyResponse)).
  { unfold eventCancel. rewrite Hhex. unfold_monad.
    rewrite Hget, Hreason. reflexivity. }
  split; [exact Hrun | rewrite Hrun; reflexivity].
Qed.

(** C6: a cancellation request whose (well-formed) event id the lookup does
    not find fails with the lookup's error mapped to 404; the cancellation
    attempt is not reached (the lookup is the only call made), so the
    outcome is not the 400 of NotCancelable and the store is untouched.  On
    the engine, an id that no stored event has makes the lookup report
    NotFound, and the handler answers 404 with its text. *)
Theorem eventCancel_unknown_event :
  (forall (r : Request) (t : Token) (s : S) (err : error),
    IsObjectIdHex (uuidOf r) = true ->
    GetByID (ObjectIdHex (uuidOf r)) s = Err err ->
    eventCancel r t (initState s)
      = (Err (HTTP StatusNotFound (Error_text err)),
         mkHState s [CallGetByID (ObjectIdHex (uuidOf r))] emptyResponse)
    /\ existsb isTryCancel (calls (snd (eventCancel r t (initState s)))) = false
    /\ fst (eventCancel r t (initState s))
         <> Err (HTTP StatusBadRequest (Error_text ErrNotCancelable)))
  /\ (forall (marshalCustom : CustomData -> Raw) (errorText : error -> string)
             (satisfies : list Permission -> AllowedPermission -> bool)
             (r : Request) (t : Token) (st : Engine.Store),
      IsObjectIdHex (uuidOf r) = true ->
      (forall e, In e (Engine.events st) -> UniqueID e <> ObjectIdHex (uuidOf r)) ->
      eventCancel (EP := Engine.pkg marshalCustom errorText satisfies)
                  r t (initState st)
        = (Err (HTTP StatusNotFound (Error_text NotFound)),
           mkHState st [CallGetByID (ObjectIdHex (uuidOf r))] emptyResponse)).
Proof.
  assert (Hrun : forall (S' : Type) (EP' : EventPkg S') (r : Request) (t : Token)
                        (s : S') (err : error),
             IsObjectIdHex (uuidOf r) = true ->
             GetByID (ObjectIdHex (uuidOf r)) s = Err err ->
             eventCancel r t (initState s)
               = (Err (HTTP StatusNotFound (Error_text err)),
                  mkHState s [CallGetByID (ObjectIdHex (uuidOf r))] emptyResponse)).
  { intros S' EP' r t s err Hhex Hget.
    unfold eventCancel. rewrite Hhex. unfold_monad. rewrite Hget. reflexivity. }
  split.
  - intros r t s err Hhex Hget.
    rewrite (Hrun S EP r t s err Hhex Hget). repeat split. simpl. discriminate.
  - intros marshalCustom errorText satisfies r t st Hhex Hnone.
    apply Hrun; [exact Hhex|].
    apply EngineFacts.GetByID_missing. exact Hnone.
Qed.

(** C4: a listing whose query returns no element answers 204 No Content:
    the status is written, nothing is encoded into the body and the
    handler returns no error.  This holds for the event list, the kind
    list and the block list. *)
Theorem empty_listing_is_no_content :
  (forall (r : Request) (t : Token) (s : S) (f : Filter) (perms : list Permission),
      ParseInput_Filter r = Ok f ->
      Permissions t = Ok perms ->
      List (setPermissions (PruneUserValues (LoadKindNames (Form r) f)) perms) s
        = Ok [] ->
      eventList r t (initState s)
        = (Ok tt,
           mkHState s
             [CallList (setPermissions (PruneUserValues (LoadKindNames (Form r) f)) perms)]
             (mkResponse (Some StatusNoContent) [] [])))
  /\ (forall (r : Request) (t : Token) (s : S),
      GetKinds s = Ok [] ->
      kindList r t (initState s)
        = (Ok tt, mkHState s [CallGetKinds] (mkResponse (Some StatusNoContent) [] [])))
  /\ (forall (r : Request) (t : Token) (s : S),
      Check t PermEventBlockRead [] = true ->
      ListBlocks (activeParam r) s = Ok [] ->
      eventBlockList r t (initState s)
        = (Ok tt,
           mkHState s
             [CallCheck t PermEventBlockRead []; CallListBlocks (activeParam r)]
             (mkResponse (Some StatusNoContent) [] []))).
Proof.
  split; [|split].
  - intros r t s f perms Hparse Hperms Hlist.
    unfold eventList. unfold_monad. rewrite Hparse, Hperms, Hlist. reflexivity.
  - intros r t s Hkinds.
    unfold kindList. unfold_monad. rewrite Hkinds. reflexivity.
  - intros r t s Hcheck Hlist.
    unfold eventBlockList. unfold_monad. rewrite Hcheck. simpl.
    rewrite Hlist. reflexivity.
Qed.

(** C3: the handlers map the typed failures to client outcomes.  A
    cancellation attempt that the engine refuses with NotCancelable is
    answered 400; the removal of a block that the engine refuses with
    ActiveBlockNotFound is answered 404; and in every handler that
    evaluates the authorization predicate, a false answer is answered with
    [permission.ErrUnauthorized] (the handlers' documented 401 outcome).
    The two statuses differ. *)
Theorem failures_map_to_client_statuses :
  (forall (r : Request) (t : Token) (s : S) (e : Event) (scheme : PermissionScheme),
      IsObjectIdHex (uuidOf r) = true ->
      GetByID (ObjectIdHex (uuidOf r)) s = Ok e ->
      InputValue r "reason" <> "" ->
      SafeGet (Scheme (AllowedCancel e)) = Ok scheme ->
      Check t scheme (Contexts (AllowedCancel e)) = true ->
      fst (TryCancel e (InputValue r "reason") (GetUserName t) s)
        = Some ErrNotCancelable ->
      fst (eventCancel r t (initState s))
        = Err (HTTP StatusBadRequest (Error_text ErrNotCancelable)))
  /\ (forall (r : Request) (t : Token) (s : S) (evt : Event) (id : string),
      Check t PermEventBlockRemove [] = true ->
      IsObjectIdHex (uuidOf r) = true ->
      fst (New (blockRemoveOpts r t (ObjectIdHex (uuidOf r))) s) = Ok evt ->
      fst (RemoveBlock (ObjectIdHex (uuidOf r))
             (snd (New (blockRemoveOpts r t (ObjectIdHex (uuidOf r))) s)))
        = Some (ErrActiveEventBlockNotFound id) ->
      fst (eventBlockRemove r t (initState s))
        = Err (HTTP StatusNotFound (Error_text (ErrActiveEventBlockNotFound id))))
  /\ (forall (r : Request) (t : Token) (s : S) (e : Event) (scheme : PermissionScheme),
      IsObjectIdHex (uuidOf r) = true ->
      GetByID (ObjectIdHex (uuidOf r)) s = Ok e ->
      SafeGet (Scheme (Allowed e)) = Ok scheme ->
      Check t scheme (Contexts (Allowed e)) = false ->
      fst (eventInfo r t (initState s)) = Err ErrUnauthorized)
  /\ (forall (r : Request) (t : Token) (s : S) (e : Event) (scheme : PermissionScheme),
      IsObjectIdHex (uuidOf r) = true ->
      GetByID (ObjectIdHex (uuidOf r)) s = Ok e ->
      InputValue r "reason" <> "" ->
      SafeGet (Scheme (AllowedCancel e)) = Ok scheme ->
      Check t scheme (Contexts (AllowedCancel e)) = false ->
      fst (eventCancel r t (initState s)) = Err ErrUnauthorized)
  /\ (forall (r : Request) (t : Token) (s : S),
      (Check t PermEventBlockRead [] = false ->
       fst (eventBlockList r t (initState s)) = Err ErrUnauthorized)
      /\ (Check t PermEventBlockAdd [] = false ->
          fst (eventBlockAdd r t (initState s)) = Err ErrUnauthorized)
      /\ (Check t PermEventBlockRemove [] = false ->
          fst (eventBlockRemove r t (initState s)) = Err ErrUnauthorized))
  /\ StatusBadRequest <> StatusNotFound.
Proof.
  repeat match goal with |- _ /\ _ => split end.
  - intros r t s e scheme Hhex Hget Hreason Hsafe Hcheck Hcancel.
    unfold eventCancel. rewrite Hhex. unfold_monad.
    rewrite Hget, (eqb_empty_false Hreason), Hsafe, Hcheck. simpl.
    destruct (TryCancel e (InputValue r "reason") (GetUserName t) s) as [res s'].
    simpl in Hcancel. subst res. simpl. reflexivity.
  - intros r t s evt id Hcheck Hhex Hnew Hremove.
    unfold eventBlockRemove. unfold_monad. rewrite Hcheck, Hhex. simpl.
    destruct (New (blockRemoveOpts r t (ObjectIdHex (uuidOf r))) s) as [res s1].
    simpl in Hnew, Hremove. subst res. simpl.
    destruct (RemoveBlock (ObjectIdHex (uuidOf r)) s1) as [err s2].
    simpl in Hremove. subst err. simpl.
    match goal with |- context [Done ?x ?y ?z] => destruct (Done x y z) end.
    reflexivity.
  - intros r t s e scheme Hhex Hget Hsafe Hcheck.
    unfold eventInfo. rewrite Hhex. unfold_monad.
    rewrite Hget, Hsafe, Hcheck. reflexivity.
  - intros r t s e scheme Hhex Hget Hreason Hsafe Hcheck.
    unfold eventCancel. rewrite Hhex. unfold_monad.
    rewrite Hget, (eqb_empty_false Hreason), Hsafe, Hcheck. reflexivity.
  - intros r t s. repeat split; intros Hcheck.
    + unfold eventBlockList. unfold_monad. rewrite Hcheck. reflexivity.
    + unfold eventBlockAdd. unfold_monad. rewrite Hcheck. reflexivity.
    + unfold eventBlockRemove. unfold_monad. rewrite Hcheck. reflexivity.
  - discriminate.
Qed.

(** C5: an empty reason is rejected and nothing is persisted.  In
    [eventBlockAdd], a parsed block with an empty Reason never reaches the
    engine: the handler returns an error, the store is unchanged and no
    writing call is made; the error is 400 "reason is required" once the
    caller passed the authorization gate.  In [eventCancel], a request with
    an empty reason returns an error, leaves the store unchanged and makes
    no writing call (so no CancelInfo is written); the error is 400
    "reason is mandatory" once the event was found. *)
Theorem empty_reason_is_rejected :
  (forall (r : Request) (t : Token) (s : S) (block : Block),
      ParseInput_Block r = Ok block ->
      Block_Reason block = "" ->
      (exists err, fst (eventBlockAdd r t (initState s)) = Err err)
      /\ store (snd (eventBlockAdd r t (initState s))) = s
      /\ existsb isWrite (calls (snd (eventBlockAdd r t (initState s)))) = false
      /\ (Check t PermEventBlockAdd [] = true ->
          fst (eventBlockAdd r t (initState s))
            = Err (HTTP StatusBadRequest "reason is required")))
  /\ (forall (r : Request) (t : Token) (s : S),
      InputValue r "reason" = "" ->
      (exists err, fst (eventCancel r t (initState s)) = Err err)
      /\ store (snd (eventCancel r t (initState s))) = s
      /\ existsb isWrite (calls (snd (eventCancel r t (initState s)))) = false
      /\ (forall e : Event,
            IsObjectIdHex (uuidOf r) = true ->
            GetByID (ObjectIdHex (uuidOf r)) s = Ok e ->
            fst (eventCancel r t (initState s))
              = Err (HTTP StatusBadRequest "reason is mandatory"))).
Proof.
  split.
  - intros r t s block Hparse Hreason.
    unfold eventBlockAdd. unfold_monad.
    destruct (Check t PermEventBlockAdd []) eqn:Hcheck; simpl.
    + rewrite Hparse, Hreason. simpl. close_cases.
    + close_cases.
  - intros r t s Hreason.
    unfold eventCancel.
    destruct (IsObjectIdHex (uuidOf r)) eqn:Hhex; unfold_monad.
    + destruct (GetByID (ObjectIdHex (uuidOf r)) s) as [e|err] eqn:Hget.
      * rewrite Hreason. simpl. close_cases.
      * close_cases.
    + close_cases.
Qed.

(** C7: once [event.New] has succeeded in [eventBlockAdd] or
    [eventBlockRemove], [evt.Done] is called before the handler returns,
    whatever [AddBlock] or [RemoveBlock] returned: it is the last call made,
    it receives the error the handler returns, and the store the handler
    leaves is the one [Done] leaves. *)
Theorem block_audit_event_is_always_closed :
  (forall (r : Request) (t : Token) (s s1 s2 : S) (block block' : Block)
          (evt : Event) (err : option error),
      Check t PermEventBlockAdd [] = true ->
      ParseInput_Block r = Ok block ->
      Block_Reason block <> "" ->
      New (blockAddOpts r t) s = (Ok evt, s1) ->
      AddBlock block s1 = ((block', err), s2) ->
      calls (snd (eventBlockAdd r t (initState s)))
        = [CallCheck t PermEventBlockAdd []; CallNew (blockAddOpts r t);
           CallAddBlock block;
           CallDone (setTargetValue evt (Hex (Block_ID block'))) err]
      /\ errOf (fst (eventBlockAdd r t (initState s))) = err
      /\ store (snd (eventBlockAdd r t (initState s)))
           = snd (Done (setTargetValue evt (Hex (Block_ID block'))) err s2))
  /\ (forall (r : Request) (t : Token) (s s1 s2 : S) (evt : Event)
             (err : option error),
      Check t PermEventBlockRemove [] = true ->
      IsObjectIdHex (uuidOf r) = true ->
      New (blockRemoveOpts r t (ObjectIdHex (uuidOf r))) s = (Ok evt, s1) ->
      RemoveBlock (ObjectIdHex (uuidOf r)) s1 = (err, s2) ->
      let returned :=
        match err with
        | Some (ErrActiveEventBlockNotFound id) =>
            Some (HTTP StatusNotFound (Error_text (ErrActiveEventBlockNotFound id)))
        | _ => err
        end in
      calls (snd (eventBlockRemove r t (initState s)))
        = [CallCheck t PermEventBlockRemove [];
           CallNew (blockRemoveOpts r t (ObjectIdHex (uuidOf r)));
           CallRemoveBlock (ObjectIdHex (uuidOf r));
           CallDone evt returned]
      /\ errOf (fst (eventBlockRemove r t (initState s))) = returned
      /\ store (snd (eventBlockRemove r t (initState s)))
           = snd (Done evt returned s2)).
Proof.
  split.
  - intros r t s s1 s2 block block' evt err Hcheck Hparse Hreason Hnew Hadd.
    unfold eventBlockAdd. unfold_monad.
    rewrite Hcheck. simpl. rewrite Hparse. simpl.
    rewrite (eqb_empty_false Hreason). simpl. rewrite Hnew.
    simpl. rewrite Hadd. simpl.
    destruct (Done (setTargetValue evt (Hex (Block_ID block'))) err s2) as [d s3].
    simpl. destruct err; simpl; repeat split.
  - intros r t s s1 s2 evt err Hcheck Hhex Hnew Hremove returned.
    unfold eventBlockRemove. unfold_monad.
    rewrite Hcheck, Hhex. simpl. rewrite Hnew. simpl. rewrite Hremove. simpl.
    assert (Hret : (if isErrActiveEventBlockNotFound err
                    then match err with
                         | Some e => Some (HTTP StatusNotFound (Error_text e))
                         | None => None
                         end
                    else err) = returned).
    { subst returned. destruct err as [[]|]; reflexivity. }
    rewrite Hret.
    destruct (Done evt returned s2) as [d s3].
    simpl. destruct returned; simpl; repeat split.
Qed.

(** C8: [suppressSensitiveEnvs] changes nothing of an event but the data of
    StartCustomData; and it leaves the event as it is and returns nil when
    suppression is disabled in the configuration, or the Kind is not the
    app-deploy permission name, or StartCustomData is empty, or the decoded
    deploy options have no App. *)
Theorem suppressSensitiveEnvs_frame :
  forall e : Event,
    (UniqueID (fst (suppressSensitiveEnvs e)) = UniqueID e
     /\ Event_Target (fst (suppressSensitiveEnvs e)) = Event_Target e
     /\ Event_Kind (fst (suppressSensitiveEnvs e)) = Event_Kind e
     /\ Event_Owner (fst (suppressSensitiveEnvs e)) = Event_Owner e
     /\ Event_RemoteAddr (fst (suppressSensitiveEnvs e)) = Event_RemoteAddr e
     /\ StartTime (fst (suppressSensitiveEnvs e)) = StartTime e
     /\ EndTime (fst (suppressSensitiveEnvs e)) = EndTime e
     /\ Error (fst (suppressSensitiveEnvs e)) = Error e
     /\ EndCustomData (fst (suppressSensitiveEnvs e)) = EndCustomData e
     /\ Allowed (fst (suppressSensitiveEnvs e)) = Allowed e
     /\ AllowedCancel (fst (suppressSensitiveEnvs e)) = AllowedCancel e
     /\ Event_CancelInfo (fst (suppressSensitiveEnvs e)) = Event_CancelInfo e
     /\ Raw_Kind (StartCustomData (fst (suppressSensitiveEnvs e)))
          = Raw_Kind (StartCustomData e))
    /\ (fst (config_GetBool "events:suppress-sensitive-envs") = false
        \/ Kind_Name (Event_Kind e) <> FullName PermAppDeploy
        \/ Data (StartCustomData e) = []
        \/ (exists d, bson_Unmarshal (Data (StartCustomData e)) = Ok d
                      /\ DeployOptions_App d = None)
        -> suppressSensitiveEnvs e = (e, None)).
Proof.
  intro e. unfold suppressSensitiveEnvs.
  destruct (fst (config_GetBool "events:suppress-sensitive-envs")) eqn:Hconf;
    simpl; [| split; [repeat split | reflexivity]].
  destruct (String.eqb (Kind_Name (Event_Kind e)) (FullName PermAppDeploy)) eqn:Hkind;
    simpl; [| split; [repeat split | reflexivity]].
  destruct (Data (StartCustomData e)) as [|b data] eqn:Hdata;
    simpl; [split; [repeat split | reflexivity] |].
  destruct (bson_Unmarshal (b :: data)) as [d|err] eqn:Hdec.
  - destruct (DeployOptions_App d) as [a|] eqn:Happ;
      [| split; [repeat split | reflexivity]].
    destruct (bson_Marshal _) as [data' err']. simpl.
    split; [repeat split |].
    intros [Habs | [Habs | [Habs | [d' [Hd' Hnone]]]]].
    + discriminate.
    + apply String.eqb_eq in Hkind. contradiction.
    + discriminate.
    + injection Hd' as <-. congruence.
  - split; [repeat split |].
    intros [Habs | [Habs | [Habs | [d' [Hd' Hnone]]]]].
    + discriminate.
    + apply String.eqb_eq in Hkind. contradiction.
    + discriminate.
    + discriminate.
Qed.

Lemma ParseBool_invalid (v : string) :
  snd (ParseBool v) <> None -> fst (ParseBool v) = false.
Proof.
  unfold ParseBool.
  destruct (existsb (String.eqb v) ["1"; "t"; "T"; "true"; "TRUE"; "True"]).
  - intro H. exfalso. apply H. reflexivity.
  - intros _.
    destruct (existsb (String.eqb v) ["0"; "f"; "F"; "false"; "FALSE"; "False"]);
      reflexivity.
Qed.

(** C10: [eventBlockList] drops the error of [strconv.ParseBool].  For a
    non-empty value of "active" that is not a boolean, the active pointer
    is set to false and the handler does exactly what it does for
    active=false: it is not rejected, an authorized caller's listing is
    made with the filter false, and on the engine that filter selects the
    inactive blocks only. *)
Theorem eventBlockList_invalid_active_lists_inactive :
  forall (r r' : Request) (t : Token) (h : HState S),
    InputValue r "active" <> "" ->
    snd (ParseBool (InputValue r "active")) <> None ->
    InputValue r' "active" = "false" ->
    activeParam r = Some false
    /\ eventBlockList r t h = eventBlockList r' t h
    /\ (Check t PermEventBlockRead [] = true ->
        calls (snd (eventBlockList r t h))
          = (calls h
             ++ [CallCheck t PermEventBlockRead []; CallListBlocks (Some false)]
             ++ match ListBlocks (Some false) (store h) with
                | Ok (b :: bs) => [CallEncode (PBlocks (b :: bs))]
                | _ => []
                end)%list)
    /\ (forall (st : Engine.Store) (bs : list Block) (b : Block),
          Engine.ListBlocks (Some false) st = Ok bs -> In b bs -> Active b = false).
Proof.
  intros r r' t h Hne Hinvalid Hfalse.
  assert (Hactive : activeParam r = Some false).
  { unfold activeParam. rewrite (eqb_empty_false Hne). simpl.
    rewrite (ParseBool_invalid _ Hinvalid). reflexivity. }
  assert (Hactive' : activeParam r' = Some false).
  { unfold activeParam. rewrite Hfalse. reflexivity. }
  split; [exact Hactive|]. split; [|split].
  - unfold eventBlockList. rewrite Hactive, Hactive'. reflexivity.
  - intro Hcheck. unfold eventBlockList. rewrite Hactive. unfold_monad.
    rewrite Hcheck. simpl.
    destruct (ListBlocks (Some false) (store h)) as [[|b bs]|err]; simpl.
    + repeat rewrite <- app_assoc. reflexivity.
    + destruct (Encode_error (PBlocks (b :: bs))); simpl;
        repeat rewrite <- app_assoc; reflexivity.
    + repeat rewrite <- app_assoc. reflexivity.
  - intros st bs b Hlist Hin. unfold Engine.ListBlocks in Hlist.
    injection Hlist as <-.
    apply EngineFacts.sortDesc_In in Hin. apply filter_In in Hin.
    destruct Hin as [_ Hb]. destruct (Active b); [discriminate | reflexivity].
Qed.

(** What [eventList] asks of the engine and what it encodes: the filter of
    its [List] call carries the caller's permission context, and the
    events it encodes are the listed ones after suppression. *)
Lemma eventList_shows (r : Request) (t : Token) (s : S) :
  (forall f, In (CallList f) (calls (snd (eventList r t (initState s)))) ->
             Permissions t = Ok (Filter_Permissions f))
  /\ (forall es, In (PEvents es) (body (resp (snd (eventList r t (initState s))))) ->
        exists f listed,
          Permissions t = Ok (Filter_Permissions f)
          /\ List f s = Ok listed
          /\ suppressAll listed = Ok es).
Proof.
  unfold eventList. cbv [bind lift].
  destruct (ParseInput_Filter r) as [f0|err0];
    [| unfold initState; simpl; split; [intros f [] | intros es []]].
  destruct (Permissions t) as [perms|err1];
    [| unfold initState; simpl; split; [intros f [] | intros es []]].
  assert (Hf : Filter_Permissions
                 (setPermissions (PruneUserValues (LoadKindNames (Form r) f0)) perms)
               = perms) by reflexivity.
  remember (setPermissions (PruneUserValues (LoadKindNames (Form r) f0)) perms)
    as f eqn:Heqf. clear Heqf.
  unfold_monad.
  destruct (List f s) as [listed|err2] eqn:Hlist; simpl;
    [| split; [intros f' [Heq | []]; injection Heq as <-; congruence | intros es []]].
  destruct (Nat.eqb (length listed) 0); simpl;
    [split; [intros f' [Heq | []]; injection Heq as <-; congruence | intros es []] |].
  destruct (suppressAll listed) as [shown|err3] eqn:Hshow; simpl;
    [| split; [intros f' [Heq | []]; injection Heq as <-; congruence | intros es []]].
  destruct (Encode_error (PEvents shown)); simpl.
  - split; [intros f' [Heq | [Heq | []]]; try discriminate;
            injection Heq as <-; congruence | intros es []].
  - split; [intros f' [Heq | [Heq | []]]; try discriminate;
            injection Heq as <-; congruence |].
    intros es [Heq | []]. injection Heq as <-.
    exists f, listed. split; [congruence|]. split; [exact Hlist | exact Hshow].
Qed.

End HandlerProperties.

(** ** Scoping of what a caller sees *)

Section Scoping.

Context `{PP : PermissionPkg} `{AP : ApiPkg} `{DP : AppPkg}.
Variable marshalCustom : CustomData -> Raw.
Variable errorText : error -> string.
Variable satisfies : list Permission -> AllowedPermission -> bool.

(** The query engine and the handlers ask the same authorization
    collaborator: a permission context satisfies a descriptor exactly when
    [Check] grants the descriptor's scheme and contexts to a token that
    carries that context. *)
Hypothesis satisfies_Check :
  forall (t : Token) (perms : list Permission) (al : AllowedPermission)
         (scheme : PermissionScheme),
    Permissions t = Ok perms ->
    SafeGet (Scheme al) = Ok scheme ->
    satisfies perms al = Check t scheme (Contexts al).

Lemma List_scoped (f : Filter) (st : Engine.Store) (es : list Event) (e : Event) :
  Engine.List satisfies f st = Ok es -> In e es ->
  satisfies (Filter_Permissions f) (Allowed e) = true.
Proof.
  unfold Engine.List. intros Hlist Hin. injection Hlist as <-.
  apply EngineFacts.sortDesc_In in Hin. apply filter_In in Hin.
  destruct Hin as [_ Hok]. apply andb_true_iff in Hok. apply Hok.
Qed.

(** C2: an event whose Allowed descriptor the authorization predicate does
    not grant to the caller is not shown to that caller.  [eventInfo]
    answers [permission.ErrUnauthorized] and writes nothing to the
    response (no header, no body, no call of the encoder); [List] with the
    caller's permission context never has the event in its result,
    whatever the other fields of the filter; [eventList] passes the
    caller's permission context to [List], and what it encodes is the
    image of a list that does not hold the event. *)
Theorem unauthorized_event_is_not_shown :
  forall (t : Token) (e : Event) (scheme : PermissionScheme),
    SafeGet (Scheme (Allowed e)) = Ok scheme ->
    Check t scheme (Contexts (Allowed e)) = false ->
    (forall (S : Type) (EP : EventPkg S) (r : Request) (s : S),
        IsObjectIdHex (uuidOf r) = true ->
        GetByID (ObjectIdHex (uuidOf r)) s = Ok e ->
        eventInfo r t (initState s)
          = (Err ErrUnauthorized,
             mkHState s
               [CallGetByID (ObjectIdHex (uuidOf r));
                CallSafeGet (Scheme (Allowed e));
                CallCheck t scheme (Contexts (Allowed e))]
               emptyResponse))
    /\ (forall (f : Filter) (st : Engine.Store) (es : list Event),
        Permissions t = Ok (Filter_Permissions f) ->
        Engine.List satisfies f st = Ok es ->
        ~ In e es)
    /\ (forall (r : Request) (st : Engine.Store),
        let out := eventList (EP := Engine.pkg marshalCustom errorText satisfies)
                     r t (initState st) in
        (forall f, In (CallList f) (calls (snd out)) ->
                   Permissions t = Ok (Filter_Permissions f))
        /\ (forall es, In (PEvents es) (body (resp (snd out))) ->
              exists listed, ~ In e listed /\ suppressAll listed = Ok es)).
Proof.
  intros t e scheme Hsafe Hcheck.
  assert (Hnot : forall (f : Filter) (st : Engine.Store) (es : list Event),
             Permissions t = Ok (Filter_Permissions f) ->
             Engine.List satisfies f st = Ok es -> ~ In e es).
  { intros f st es Hperms Hlist Hin.
    pose proof (@List_scoped f st es e Hlist Hin) as Hsat.
    rewrite (@satisfies_Check t _ (Allowed e) _ Hperms Hsafe) in Hsat. congruence. }
  split; [|split; [exact Hnot|]].
  - intros S EP r s Hhex Hget.
    unfold eventInfo. rewrite Hhex. unfold_monad.
    rewrite Hget, Hsafe, Hcheck. reflexivity.
  - intros r st out. subst out.
    destruct (eventList_shows (EP := Engine.pkg marshalCustom errorText satisfies)
                r t st) as [Hcalls Hbody].
    split; [exact Hcalls|].
    intros es Hin. destruct (Hbody es Hin) as (f & listed & Hperms & Hlist & Hshow).
    exists listed. split; [exact (Hnot f st listed Hperms Hlist) | exact Hshow].
Qed.

End Scoping.

(** ** Runs on the concrete instance *)

Example raced_outcomes :
  map snd (Engine.outcomes Fixture.raced)
  = [Err Locked;
     Ok (mkEvent (Engine.newID 0) (mkTarget "app" "foo") (mkKind "app.deploy")
                 (mkOwner "guest") "10.0.0.1" 0 None None
                 (mkRaw Byte.x04 []) Engine.emptyRaw
                 (mkAllowed "app.deploy" []) (mkAllowed "app.deploy" []) None)].
Proof. reflexivity. Qed.

Example info_guest :
  Fixture.info (Fixture.request Fixture.uuid1 []) Fixture.guest
               (initState Fixture.store1)
  = (Err ErrUnauthorized,
     mkHState Fixture.store1
       [CallGetByID (ObjectIdHex Fixture.uuid1); CallSafeGet "app.deploy";
        CallCheck Fixture.guest (mkScheme "app.deploy") []]
       emptyResponse).
Proof. reflexivity. Qed.

Example info_admin :
  resp (snd (Fixture.info (Fixture.request Fixture.uuid1 []) Fixture.admin
                          (initState Fixture.store1)))
  = mkResponse (Some StatusOK) [("Content-Type", "application/json")]
      [PEvent (mkEvent (ObjectIdHex Fixture.uuid1) (mkTarget "app" "foo")
                 (mkKind "app.deploy") (mkOwner "admin") "10.0.0.1" 7 None None
                 (mkRaw Byte.x03 [Byte.x2a; Byte.x2a]) Engine.emptyRaw
                 (mkAllowed "app.deploy" []) (mkAllowed "app.deploy" []) None)].
Proof. reflexivity. Qed.

Example ParseBool_values :
  map ParseBool ["TRUE"; "f"; "yes"; ""]
  = [(true, None); (false, None);
     (false, Some (SyntaxError "ParseBool" "yes"));
     (false, Some (SyntaxError "ParseBool" ""))].
Proof. reflexivity. Qed.

Example Hex_ObjectIdHex :
  Hex (ObjectIdHex "5F2B0C1D9E8A7B6C5D4E3F20") = Fixture.uuid1
  /\ IsObjectIdHex "5f2b0c1d9e8a7b6c5d4e3f2" = false
  /\ IsObjectIdHex "5f2b0c1d9e8a7b6c5d4e3fzz" = false.
Proof. repeat split. Qed.

Lemma concurrent_Open_mutual_exclusion_witness :
  Engine.countOutcomes Engine.succeeded (Engine.outcomes Fixture.raced) = 1%nat
  /\ Engine.countOutcomes Engine.failedLocked (Engine.outcomes Fixture.raced) = 1%nat
  /\ length (Engine.outcomes Fixture.raced) = 2%nat.
Proof.
  destruct (@EngineFacts.concurrent_Open_mutual_exclusion
              Fixture.marshalCustom Fixture.errorText (mkTarget "app" "foo")
              [Fixture.deployBy Fixture.guest; Fixture.deployBy Fixture.admin]
              Engine.emptyStore) as [_ Hall].
  - simpl. lia.
  - intros o [<- | [<- | []]]; split; reflexivity.
  - reflexivity.
  - destruct (Hall Fixture.raced) as (Hone & Hrest & Hlen & _).
    + eapply Engine.steps_step.
      * exact (Engine.step_open Fixture.marshalCustom []
                 (Fixture.deployBy Fixture.guest)
                 [Fixture.deployBy Fixture.admin] Engine.emptyStore []).
      * eapply Engine.steps_step; [|apply Engine.steps_refl].
        exact (Engine.step_open Fixture.marshalCustom []
                 (Fixture.deployBy Fixture.admin) [] _ _).
    + reflexivity.
    + split; [exact Hone|]. split; [exact Hrest | exact Hlen].
Defined.

Lemma unauthorized_event_is_not_shown_witness :
  Fixture.info (Fixture.request Fixture.uuid1 []) Fixture.guest
               (initState Fixture.store1)
  = (Err ErrUnauthorized,
     mkHState Fixture.store1
       [CallGetByID (ObjectIdHex Fixture.uuid1); CallSafeGet "app.deploy";
        CallCheck Fixture.guest (mkScheme "app.deploy") []]
       emptyResponse)
  /\ forall (f : Filter) (st : Engine.Store) (es : list Event),
       Permissions Fixture.guest = Ok (Filter_Permissions f) ->
       Engine.List Fixture.satisfies f st = Ok es ->
       ~ In Fixture.deploy1 es.
Proof.
  destruct (@unauthorized_event_is_not_shown
              Fixture.permissions Fixture.api Fixture.apps
              Fixture.marshalCustom Fixture.errorText Fixture.satisfies)
    with (t := Fixture.guest) (e := Fixture.deploy1) (scheme := mkScheme "app.deploy")
    as (Hinfo & Hlist & _).
  - intros t perms al scheme Hperms Hsafe. simpl in *.
    injection Hsafe as <-. rewrite Hperms. reflexivity.
  - reflexivity.
  - reflexivity.
  - split; [|exact Hlist].
    apply (Hinfo Engine.Store Fixture.engine); reflexivity.
Defined.

Lemma failures_map_to_client_statuses_witness :
  fst (Fixture.cancel (Fixture.request Fixture.uuid2 [("reason", ["stop"])])
                      Fixture.admin (initState Fixture.store2))
  = Err (HTTP StatusBadRequest "event is not cancelable")
  /\ fst (Fixture.blockRemove (Fixture.request Fixture.uuid1 [])
                              Fixture.admin (initState Fixture.store1))
     = Err (HTTP StatusNotFound
              ("active event block not found: " ++ Fixture.uuid1))
  /\ fst (Fixture.blockList (Fixture.request "" [])
                            Fixture.guest (initState Fixture.store1))
     = Err ErrUnauthorized.
Proof.
  destruct (@failures_map_to_client_statuses
              Engine.Store Fixture.permissions Fixture.api Fixture.apps Fixture.engine)
    as (Hcancel & Hremove & _ & _ & Hblocks & _).
  split; [|split].
  - apply Hcancel with (e := Fixture.deploy2) (scheme := mkScheme "app.deploy");
      try reflexivity.
    simpl. discriminate.
  - apply Hremove with
      (evt := mkEvent (Engine.newID 1) (mkTarget "event-block" Fixture.uuid1)
                (mkKind "event-block.remove") (mkOwner "admin") "10.0.0.1" 8 None None
                (mkRaw Byte.x04 [Byte.x01]) Engine.emptyRaw
                (mkAllowed "event-block.read.events" []) (mkAllowed "" []) None);
      reflexivity.
  - apply (Hblocks (Fixture.request "" []) Fixture.guest Fixture.store1). reflexivity.
Defined.

Lemma empty_listing_is_no_content_witness :
  Fixture.kinds (Fixture.request "" []) Fixture.guest (initState Engine.emptyStore)
  = (Ok tt, mkHState Engine.emptyStore [CallGetKinds]
              (mkResponse (Some StatusNoContent) [] []))
  /\ Fixture.blockList (Fixture.request "" []) Fixture.admin (initState Fixture.store1)
     = (Ok tt,
        mkHState Fixture.store1
          [CallCheck Fixture.admin (mkScheme "event-block.read") []; CallListBlocks None]
          (mkResponse (Some StatusNoContent) [] []))
  /\ Fixture.list (Fixture.request "" []) Fixture.guest (initState Fixture.store1)
     = (Ok tt,
        mkHState Fixture.store1
          [CallList (mkFilter (mkTarget "" "") [] "" None None None [])]
          (mkResponse (Some StatusNoContent) [] [])).
Proof.
  destruct (@empty_listing_is_no_content
              Engine.Store Fixture.permissions Fixture.api Fixture.apps Fixture.engine)
    as (Hevents & Hkinds & Hblocks).
  split; [|split].
  - apply Hkinds. reflexivity.
  - apply Hblocks; reflexivity.
  - apply (Hevents (Fixture.request "" []) Fixture.guest Fixture.store1
             (mkFilter (mkTarget "" "") [] "" None None None []) []);
      reflexivity.
Defined.

Lemma empty_reason_is_rejected_witness :
  (fst (Fixture.blockAdd (Fixture.request "" [("kindname", ["app.deploy"])])
                         Fixture.admin (initState Fixture.store1))
   = Err (HTTP StatusBadRequest "reason is required")
   /\ store (snd (Fixture.blockAdd (Fixture.request "" [("kindname", ["app.deploy"])])
                                   Fixture.admin (initState Fixture.store1)))
      = Fixture.store1)
  /\ (fst (Fixture.cancel (Fixture.request Fixture.uuid1 [])
                          Fixture.admin (initState Fixture.store1))
      = Err (HTTP StatusBadRequest "reason is mandatory")
      /\ store (snd (Fixture.cancel (Fixture.request Fixture.uuid1 [])
                                    Fixture.admin (initState Fixture.store1)))
         = Fixture.store1).
Proof.
  destruct (@empty_reason_is_rejected
              Engine.Store Fixture.permissions Fixture.api Fixture.engine)
    as (Hadd & Hcancel).
  split.
  - destruct (Hadd (Fixture.request "" [("kindname", ["app.deploy"])])
                   Fixture.admin Fixture.store1
                   (mkBlock "" 0 None "app.deploy" "" (mkTarget "" "") ""))
      as (_ & Hstore & _ & Herr); try reflexivity.
    split; [apply Herr; reflexivity | exact Hstore].
  - destruct (Hcancel (Fixture.request Fixture.uuid1 []) Fixture.admin Fixture.store1)
      as (_ & Hstore & _ & Herr); try reflexivity.
    split; [apply (Herr Fixture.deploy1); reflexivity | exact Hstore].
Defined.

Lemma eventCancel_unknown_event_witness :
  Fixture.cancel (Fixture.request Fixture.uuid2 [("reason", ["stop"])])
                 Fixture.admin (initState Fixture.store1)
  = (Err (HTTP StatusNotFound "event not found"),
     mkHState Fixture.store1 [CallGetByID (ObjectIdHex Fixture.uuid2)] emptyResponse).
Proof.
  destruct (@eventCancel_unknown_event
              Engine.Store Fixture.permissions Fixture.api Fixture.engine)
    as [_ Hengine].
  apply (Hengine Fixture.marshalCustom Fixture.errorText Fixture.satisfies
                 (Fixture.request Fixture.uuid2 [("reason", ["stop"])])
                 Fixture.admin Fixture.store1).
  - reflexivity.
  - intros e [<- | []]. vm_compute. discriminate.
Defined.

Lemma block_audit_event_is_always_closed_witness :
  existsb isDone
    (calls (snd (Fixture.blockAdd (Fixture.request "" [("reason", ["maintenance"])])
                                  Fixture.admin (initState Engine.emptyStore))))
  = true
  /\ existsb isDone
       (calls (snd (Fixture.blockRemove (Fixture.request Fixture.uuid1 [])
                                        Fixture.admin (initState Fixture.store1))))
     = true
  /\ fst (Fixture.blockRemove (Fixture.request Fixture.uuid1 [])
                              Fixture.admin (initState Fixture.store1))
     <> Ok tt.
Proof.
  destruct (@block_audit_event_is_always_closed
              Engine.Store Fixture.permissions Fixture.api Fixture.engine)
    as (Hadd & Hremove).
  split; [|split].
  - edestruct (Hadd (Fixture.request "" [("reason", ["maintenance"])])
                    Fixture.admin Engine.emptyStore) as (Hcalls & _);
      [reflexivity | reflexivity | simpl; discriminate
       | reflexivity | reflexivity |].
    unfold Fixture.blockAdd. rewrite Hcalls. reflexivity.
  - edestruct (Hremove (Fixture.request Fixture.uuid1 [])
                       Fixture.admin Fixture.store1) as (Hcalls & _);
      [reflexivity | reflexivity | reflexivity | reflexivity |].
    unfold Fixture.blockRemove. rewrite Hcalls. reflexivity.
  - discriminate.
Defined.

Lemma suppressSensitiveEnvs_frame_witness :
  Fixture.suppress Fixture.deploy2 = (Fixture.deploy2, None).
Proof.
  apply (@suppressSensitiveEnvs_frame
           Fixture.permissions Fixture.api Fixture.apps Fixture.deploy2).
  right. right. right.
  exists (mkDeployOptions None tt). split; reflexivity.
Defined.

Lemma eventCancel_reason_before_authorization_witness :
  Fixture.cancel (Fixture.request Fixture.uuid1 []) Fixture.guest
                 (initState Fixture.store1)
  = (Err (HTTP StatusBadRequest "reason is mandatory"),
     mkHState Fixture.store1 [CallGetByID (ObjectIdHex Fixture.uuid1)] emptyResponse).
Proof.
  apply (@eventCancel_reason_before_authorization
           Engine.Store Fixture.permissions Fixture.api Fixture.engine
           (Fixture.request Fixture.uuid1 []) Fixture.guest Fixture.store1
           Fixture.deploy1);
    reflexivity.
Defined.

Lemma eventBlockList_invalid_active_lists_inactive_witness :
  Fixture.blockList (Fixture.request "" [("active", ["maybe"])]) Fixture.admin
                    (initState Fixture.store1)
  = Fixture.blockList (Fixture.request "" [("active", ["false"])]) Fixture.admin
                      (initState Fixture.store1).
Proof.
  apply (@eventBlockList_invalid_active_lists_inactive
           Engine.Store Fixture.permissions Fixture.api Fixture.engine
           (Fixture.request "" [("active", ["maybe"])])
           (Fixture.request "" [("active", ["false"])])
           Fixture.admin (initState Fixture.store1)).
  - simpl. discriminate.
  - simpl. discriminate.
  - reflexivity.
Defined.

(** ** Further properties of the handlers *)

(** Follows every path of a handler: each result of a collaborator that
    the handler inspects is split into its cases. *)
Ltac explore :=
  repeat (simpl;
          match goal with
          | |- context [match ?x with _ => _ end] =>
              lazymatch x with
              | context [match _ with _ => _ end] => fail
              | _ => destruct x eqn:?
              end
          end).

Ltac run_handler :=
  unfold eventList, kindList, eventInfo, eventCancel, eventBlockList,
    eventBlockAdd, eventBlockRemove;
  unfold_monad; explore; simpl.

Section HandlerCoverage.

Context {S : Type}.
Context `{PP : PermissionPkg} `{AP : ApiPkg} `{DP : AppPkg} `{EP : EventPkg S}.

(** The handlers that only read ([eventList], [kindList], [eventInfo],
    [eventBlockList]) leave the store as it was and make no writing call to
    the engine, whatever the request, the token and the answers of the
    collaborators. *)
Theorem reading_handlers_keep_the_store :
  forall (r : Request) (t : Token) (s : S),
    (store (snd (eventList r t (initState s))) = s
     /\ existsb isWrite (calls (snd (eventList r t (initState s)))) = false)
    /\ (store (snd (kindList r t (initState s))) = s
        /\ existsb isWrite (calls (snd (kindList r t (initState s)))) = false)
    /\ (store (snd (eventInfo r t (initState s))) = s
        /\ existsb isWrite (calls (snd (eventInfo r t (initState s)))) = false)
    /\ (store (snd (eventBlockList r t (initState s))) = s
        /\ existsb isWrite (calls (snd (eventBlockList r t (initState s)))) = false).
Proof.
  intros r t s. repeat match goal with |- _ /\ _ => split end.
  all: run_handler; reflexivity.
Qed.

Ltac unnegb :=
  repeat match goal with
         | H : negb _ = false |- _ => apply negb_false_iff in H
         | H : negb _ = true |- _ => apply negb_true_iff in H
         | H : String.eqb _ _ = false |- _ => apply String.eqb_neq in H
         | H : String.eqb _ _ = true |- _ => apply String.eqb_eq in H
         end.

(** Splits a membership in a call log that is a list of known calls. *)
Ltac in_calls H :=
  simpl in H;
  repeat match type of H with
         | _ \/ _ => destruct H as [H | H]; [try discriminate H |]
         end;
  try contradiction.


(** [eventCancel] reaches [TryCancel] only behind its gates: the call is
    made on the event the lookup found, with the reason of the request
    (not empty) and the name of the token's user, and only when [Check]
    granted the event's AllowedCancel descriptor to the token. *)
Theorem cancel_is_attempted_only_when_authorized :
  forall (r : Request) (t : Token) (s : S) (evt : Event) (reason user : string),
    In (CallTryCancel evt reason user) (calls (snd (eventCancel r t (initState s)))) ->
    IsObjectIdHex (uuidOf r) = true
    /\ GetByID (ObjectIdHex (uuidOf r)) s = Ok evt
    /\ reason = InputValue r "reason"
    /\ reason <> ""
    /\ user = GetUserName t
    /\ exists scheme,
         SafeGet (Scheme (AllowedCancel evt)) = Ok scheme
         /\ Check t scheme (Contexts (AllowedCancel evt)) = true.
Proof.
  intros r t s evt reason user.
  run_handler; intro Hin; in_calls Hin.
  all: injection Hin as <- <- <-; unnegb;
    repeat match goal with |- _ /\ _ => split end;
    try reflexivity; try assumption; eexists; split; eassumption.
Qed.


(** The block handlers reach the engine only behind their gates.
    [eventBlockAdd] makes a writing call only for a token that [Check]
    grants [PermEventBlockAdd] and a parsed block with a reason;
    [eventBlockRemove] only for a token granted [PermEventBlockRemove] and
    a well-formed id; [eventBlockList] queries the blocks only for a token
    granted [PermEventBlockRead], with the filter of the request. *)
Theorem block_operations_run_only_when_authorized :
  forall (r : Request) (t : Token) (s : S),
    (existsb isWrite (calls (snd (eventBlockAdd r t (initState s)))) = true ->
     Check t PermEventBlockAdd [] = true
     /\ exists block, ParseInput_Block r = Ok block /\ Block_Reason block <> "")
    /\ (existsb isWrite (calls (snd (eventBlockRemove r t (initState s)))) = true ->
        Check t PermEventBlockRemove [] = true
        /\ IsObjectIdHex (uuidOf r) = true)
    /\ (forall active,
          In (CallListBlocks active) (calls (snd (eventBlockList r t (initState s)))) ->
          Check t PermEventBlockRead [] = true /\ active = activeParam r).
Proof.
  intros r t s. split; [|split].
  - run_handler; intro Hw; try discriminate Hw; unnegb;
      (split; [assumption | eexists; split; [reflexivity | assumption]]).
  - run_handler; intro Hw; try discriminate Hw; unnegb; split; assumption.
  - intro active. run_handler; intro Hin; in_calls Hin.
    all: injection Hin as <-; unnegb; split; [assumption | reflexivity].
Qed.

Lemma suppress_keeps_UniqueID (e : Event) :
  UniqueID (fst (suppressSensitiveEnvs e)) = UniqueID e.
Proof.
  unfold suppressSensitiveEnvs.
  repeat match goal with
         | |- context [if ?c then _ else _] => destruct c; simpl; try reflexivity
         | |- context [match ?x with _ => _ end] =>
             destruct x; simpl; try reflexivity
         end.
Qed.

(** The loop of [eventList] over the listed events.  It succeeds exactly
    when the suppression of every event returns no error, and then it
    yields the events that the suppression left, in the order listed and
    with their identities; when it fails, its error is the error of the
    suppression of one of the events. *)
Theorem suppressAll_results :
  forall es : list Event,
    (forall es', suppressAll es = Ok es' <->
        (forall e, In e es -> snd (suppressSensitiveEnvs e) = None)
        /\ es' = map (fun e => fst (suppressSensitiveEnvs e)) es)
    /\ (forall es', suppressAll es = Ok es' -> map UniqueID es' = map UniqueID es)
    /\ (forall err, suppressAll es = Err err ->
          exists e, In e es /\ snd (suppressSensitiveEnvs e) = Some err).
Proof.
  induction es as [|e es (IHok & IHid & IHerr)].
  - split; [|split].
    + intro es'. simpl. split.
      * intro H. injection H as <-. split; [intros e [] | reflexivity].
      * intros [_ ->]. reflexivity.
    + intros es' H. injection H as <-. reflexivity.
    + intros err H. discriminate H.
  - simpl. pose proof (suppress_keeps_UniqueID e) as Hid.
    destruct (suppressSensitiveEnvs e) as [e' [err0|]] eqn:Hsup; simpl in *.
    + split; [|split].
      * intro es'. split; [discriminate|].
        intros [Hall _]. specialize (Hall e (or_introl eq_refl)).
        rewrite Hsup in Hall. discriminate Hall.
      * intros es' H. discriminate H.
      * intros err H. injection H as <-. exists e. rewrite Hsup.
        split; [left; reflexivity | reflexivity].
    + destruct (suppressAll es) as [rest|err1] eqn:Hrest.
      * split; [|split].
        -- intro es'. split.
           ++ intro H. injection H as <-.
              destruct (proj1 (IHok rest) eq_refl) as [Hall ->].
              split; [|reflexivity].
              intros x [<- | Hin]; [rewrite Hsup; reflexivity | exact (Hall x Hin)].
           ++ intros [_ ->].
              destruct (proj1 (IHok rest) eq_refl) as [_ ->]. reflexivity.
        -- intros es' H. injection H as <-. simpl.
           rewrite Hid, (IHid rest eq_refl). reflexivity.
        -- intros err H. discriminate H.
      * split; [|split].
        -- intro es'. split; [discriminate|].
           intros [Hall _].
           assert (Hok : @Err (list Event) err1
                         = Ok (map (fun e => fst (suppressSensitiveEnvs e)) es)).
           { apply IHok. split; [|reflexivity].
             intros x Hin. apply Hall. right. exact Hin. }
           discriminate Hok.
        -- intros es' H. discriminate H.
        -- intros err H. injection H as <-.
           destruct (IHerr err1 eq_refl) as (x & Hin & Hx).
           exists x. split; [right; exact Hin | exact Hx].
Qed.

Lemma suppressAll_length (es es' : list Event) :
  suppressAll es = Ok es' -> length es' = length es.
Proof.
  revert es'. induction es as [|e es IH]; simpl; intros es' H.
  - injection H as <-. reflexivity.
  - destruct (suppressSensitiveEnvs e) as [e' [err|]]; [discriminate|].
    destruct (suppressAll es) as [rest|err]; [|discriminate].
    injection H as <-. simpl. rewrite (IH rest eq_refl). reflexivity.
Qed.

Ltac nonempty :=
  let Hnil := fresh "Hnil" in
  intro Hnil;
  repeat match goal with
         | H : suppressAll _ = Ok _ |- _ => apply suppressAll_length in H
         end;
  subst; simpl in *;
  repeat match goal with
         | H : 0%nat = length ?l |- _ => destruct l; simpl in H; try discriminate H
         end;
  simpl in *; congruence.

(** What a handler that returns no error has answered.  The three listings
    answer either 204 with nothing else, or 200 with the JSON content type
    and one document, a collection that is never empty; [eventInfo]
    answers the one event; [eventCancel] answers 204 and no body;
    [eventBlockAdd] and [eventBlockRemove] write nothing themselves. *)
Theorem successful_answers :
  forall (r : Request) (t : Token) (s : S),
    let json := [("Content-Type", "application/json")] in
    let noContent := mkResponse (Some StatusNoContent) [] [] in
    (fst (eventList r t (initState s)) = Ok tt ->
     resp (snd (eventList r t (initState s))) = noContent
     \/ exists es, es <> []
          /\ resp (snd (eventList r t (initState s)))
             = mkResponse (Some StatusOK) json [PEvents es])
    /\ (fst (kindList r t (initState s)) = Ok tt ->
        resp (snd (kindList r t (initState s))) = noContent
        \/ exists ks, ks <> []
             /\ resp (snd (kindList r t (initState s)))
                = mkResponse (Some StatusOK) json [PKinds ks])
    /\ (fst (eventBlockList r t (initState s)) = Ok tt ->
        resp (snd (eventBlockList r t (initState s))) = noContent
        \/ exists bs, bs <> []
             /\ resp (snd (eventBlockList r t (initState s)))
                = mkResponse (Some StatusOK) json [PBlocks bs])
    /\ (fst (eventInfo r t (initState s)) = Ok tt ->
        exists e, resp (snd (eventInfo r t (initState s)))
                  = mkResponse (Some StatusOK) json [PEvent e])
    /\ (fst (eventCancel r t (initState s)) = Ok tt ->
        resp (snd (eventCancel r t (initState s))) = noContent)
    /\ (fst (eventBlockAdd r t (initState s)) = Ok tt ->
        resp (snd (eventBlockAdd r t (initState s))) = emptyResponse)
    /\ (fst (eventBlockRemove r t (initState s)) = Ok tt ->
        resp (snd (eventBlockRemove r t (initState s))) = emptyResponse).
Proof.
  intros r t s json noContent. subst json noContent.
  repeat match goal with |- _ /\ _ => split end.
  all: run_handler; intro Hok; try discriminate Hok; try reflexivity.
  all: try (left; reflexivity).
  all: try (refine (or_intror (ex_intro _ _ (conj _ eq_refl))); nonempty).
  all: eexists; reflexivity.
Qed.

(** A path parameter that is not the hex form of an ObjectId is rejected
    with 400 and the message that quotes it.  [eventInfo] and
    [eventCancel] reject it before any call, whoever the caller is;
    [eventBlockRemove] checks the permission first, so an unauthorized
    caller gets [ErrUnauthorized] and an authorized one the 400, and no
    audit event is opened. *)
Theorem malformed_uuid_is_rejected :
  forall (r : Request) (t : Token) (s : S),
    IsObjectIdHex (uuidOf r) = false ->
    let bad := HTTP StatusBadRequest ("uuid parameter is not ObjectId: " ++ uuidOf r) in
    eventInfo r t (initState s) = (Err bad, initState s)
    /\ eventCancel r t (initState s) = (Err bad, initState s)
    /\ eventBlockRemove r t (initState s)
       = (Err (if Check t PermEventBlockRemove [] then bad else ErrUnauthorized),
          mkHState s [CallCheck t PermEventBlockRemove []] emptyResponse).
Proof.
  intros r t s Hbad bad. subst bad.
  unfold eventInfo, eventCancel, eventBlockRemove. rewrite Hbad. unfold_monad.
  split; [reflexivity|]. split; [reflexivity|].
  destruct (Check t PermEventBlockRemove []); reflexivity.
Qed.

(** When [event.New] refuses to open the audit event (the target is
    locked or blocked, or the store fails), the block handlers return that
    error as it is and go no further: [AddBlock] or [RemoveBlock] is not
    called and there is no event to close. *)
Theorem refused_audit_event_stops_the_block_operation :
  (forall (r : Request) (t : Token) (s s1 : S) (block : Block) (err : error),
      Check t PermEventBlockAdd [] = true ->
      ParseInput_Block r = Ok block ->
      Block_Reason block <> "" ->
      New (blockAddOpts r t) s = (Err err, s1) ->
      eventBlockAdd r t (initState s)
        = (Err err,
           mkHState s1 [CallCheck t PermEventBlockAdd []; CallNew (blockAddOpts r t)]
                    emptyResponse))
  /\ (forall (r : Request) (t : Token) (s s1 : S) (err : error),
      Check t PermEventBlockRemove [] = true ->
      IsObjectIdHex (uuidOf r) = true ->
      New (blockRemoveOpts r t (ObjectIdHex (uuidOf r))) s = (Err err, s1) ->
      eventBlockRemove r t (initState s)
        = (Err err,
           mkHState s1
             [CallCheck t PermEventBlockRemove [];
              CallNew (blockRemoveOpts r t (ObjectIdHex (uuidOf r)))]
             emptyResponse)).
Proof.
  split.
  - intros r t s s1 block err Hcheck Hparse Hreason Hnew.
    unfold eventBlockAdd. unfold_monad. rewrite Hcheck. simpl.
    rewrite Hparse. simpl. rewrite (eqb_empty_false Hreason). simpl.
    rewrite Hnew. reflexivity.
  - intros r t s s1 err Hcheck Hhex Hnew.
    unfold eventBlockRemove. unfold_monad. rewrite Hcheck, Hhex. simpl.
    rewrite Hnew. reflexivity.
Qed.

(** The outcome of [eventCancel] once the request passed its gates follows
    the answer of [TryCancel]: no error gives 204 with no body; an error
    other than [ErrNotCancelable] is returned as it is; in each case the
    store is the one [TryCancel] left and [TryCancel] was the last call. *)
Theorem eventCancel_follows_TryCancel :
  forall (r : Request) (t : Token) (s s' : S) (e : Event)
         (scheme : PermissionScheme) (res : option error),
    IsObjectIdHex (uuidOf r) = true ->
    GetByID (ObjectIdHex (uuidOf r)) s = Ok e ->
    InputValue r "reason" <> "" ->
    SafeGet (Scheme (AllowedCancel e)) = Ok scheme ->
    Check t scheme (Contexts (AllowedCancel e)) = true ->
    TryCancel e (InputValue r "reason") (GetUserName t) s = (res, s') ->
    let log := [CallGetByID (ObjectIdHex (uuidOf r));
                CallSafeGet (Scheme (AllowedCancel e));
                CallCheck t scheme (Contexts (AllowedCancel e));
                CallTryCancel e (InputValue r "reason") (GetUserName t)] in
    (res = None ->
     eventCancel r t (initState s)
       = (Ok tt, mkHState s' log (mkResponse (Some StatusNoContent) [] [])))
    /\ (forall err, res = Some err -> err <> ErrNotCancelable ->
          eventCancel r t (initState s) = (Err err, mkHState s' log emptyResponse)).
Proof.
  intros r t s s' e scheme res Hhex Hget Hreason Hsafe Hcheck Hcancel log.
  subst log. unfold eventCancel. rewrite Hhex. unfold_monad.
  rewrite Hget, (eqb_empty_false Hreason), Hsafe, Hcheck. simpl.
  rewrite Hcancel. simpl. split.
  - intros ->. reflexivity.
  - intros err -> Hother. destruct err; simpl; try reflexivity.
    elim Hother. reflexivity.
Qed.

Lemma existsb_eqb_In (v : string) (l : list string) :
  existsb (String.eqb v) l = true <-> In v l.
Proof.
  rewrite existsb_exists. split.
  - intros (x & Hin & Heq). apply String.eqb_eq in Heq. subst x. exact Hin.
  - intro Hin. exists v. split; [exact Hin | apply String.eqb_refl].
Qed.

(** The filter that [eventBlockList] reads from the parameter "active":
    none when the parameter is missing or empty; true for exactly the six
    spellings of true that [strconv.ParseBool] accepts; false for every
    other value that is not empty. *)
Theorem activeParam_values :
  forall r : Request,
    (activeParam r = None <-> InputValue r "active" = "")
    /\ (activeParam r = Some true <->
        In (InputValue r "active") ["1"; "t"; "T"; "true"; "TRUE"; "True"])
    /\ (activeParam r = Some false <->
        InputValue r "active" <> ""
        /\ ~ In (InputValue r "active") ["1"; "t"; "T"; "true"; "TRUE"; "True"]).
Proof.
  intro r. unfold activeParam, ParseBool.
  set (v := InputValue r "active").
  pose proof (existsb_eqb_In v ["1"; "t"; "T"; "true"; "TRUE"; "True"]) as Htrue.
  destruct (String.eqb v "") eqn:Hempty.
  - apply String.eqb_eq in Hempty. rewrite Hempty in *. simpl.
    split; [tauto|]. split.
    + split; [discriminate|].
      intro Hin. simpl in Hin. intuition discriminate.
    + split; [discriminate | tauto].
  - apply String.eqb_neq in Hempty. cbv [negb].
    destruct (existsb (String.eqb v) ["1"; "t"; "T"; "true"; "TRUE"; "True"]).
    + cbv [fst]. split; [split; [discriminate | contradiction]|].
      split; [tauto|]. split; [discriminate|]. intros [_ Hn]. tauto.
    + assert (Hfst : forall b : bool, fst (if b then (false, @None error)
                                    else (false, Some (SyntaxError "ParseBool" v)))
                               = false) by (intros []; reflexivity).
      rewrite Hfst.
      split; [split; [discriminate | contradiction]|].
      split; [split; [discriminate | intro Hin; apply Htrue in Hin; discriminate]|].
      split; [intros _; split; [exact Hempty|] | reflexivity].
      intro Hin. apply Htrue in Hin. discriminate.
Qed.


(** The audit event of a block operation is closed once at most, and only
    if it was opened: a [Done] call in [eventBlockAdd] or
    [eventBlockRemove] is on the event that [event.New] returned, it
    passes the error that the handler itself returns, and it is the only
    one. *)
Theorem audit_event_is_closed_only_if_opened :
  forall (r : Request) (t : Token) (s : S),
    ((forall evt err,
        In (CallDone evt err) (calls (snd (eventBlockAdd r t (initState s)))) ->
        err = errOf (fst (eventBlockAdd r t (initState s)))
        /\ exists evt0 s1,
             New (blockAddOpts r t) s = (Ok evt0, s1)
             /\ UniqueID evt = UniqueID evt0)
     /\ (length (filter isDone (calls (snd (eventBlockAdd r t (initState s))))) <= 1)%nat)
    /\ ((forall evt err,
           In (CallDone evt err) (calls (snd (eventBlockRemove r t (initState s)))) ->
           err = errOf (fst (eventBlockRemove r t (initState s)))
           /\ exists s1,
                New (blockRemoveOpts r t (ObjectIdHex (uuidOf r))) s = (Ok evt, s1))
        /\ (length (filter isDone (calls (snd (eventBlockRemove r t (initState s)))))
            <= 1)%nat).
Proof.
  intros r t s. split; split.
  - intros evt err. run_handler; intro Hin; in_calls Hin.
    all: injection Hin as <- <-; split; [reflexivity|];
      eexists; eexists; split; reflexivity.
  - run_handler; lia.
  - intros evt err. run_handler; intro Hin; in_calls Hin.
    all: injection Hin as <- <-; split; [reflexivity|];
      eexists; reflexivity.
  - run_handler; lia.
Qed.

End HandlerCoverage.

(** ** The hex form of an ObjectId *)

Lemma fromHexChar_hexDigit (n : N) :
  (n < 16)%N -> fromHexChar (hexDigit n) = Some n.
Proof.
  intro Hn. rewrite <- (N2Nat.id n).
  assert (Hk : (N.to_nat n < 16)%nat) by lia.
  set (k := N.to_nat n) in *. clearbody k. clear Hn.
  do 16 (destruct k as [|k]; [reflexivity|]). lia.
Qed.

Lemma hexDecode_hexEncode (b : string) : hexDecode (hexEncode b) = Some b.
Proof.
  induction b as [|c b IH]; [reflexivity|].
  cbn [hexEncode hexDecode].
  pose proof (N_ascii_bounded c) as Hc.
  rewrite !fromHexChar_hexDigit, IH.
  - rewrite <- (N.div_mod (N_of_ascii c) 16) by discriminate.
    rewrite ascii_N_embedding. reflexivity.
  - apply N.mod_lt. discriminate.
  - apply N.Div0.div_lt_upper_bound. exact Hc.
Qed.

Lemma length_hexEncode (b : string) :
  String.length (hexEncode b) = (2 * String.length b)%nat.
Proof. induction b as [|c b IH]; simpl; [reflexivity | rewrite IH; lia]. Qed.

Lemma hexDecode_length (s : string) :
  (forall d, hexDecode s = Some d -> String.length s = (2 * String.length d)%nat)
  /\ (forall c d, hexDecode (String c s) = Some d ->
                  String.length (String c s) = (2 * String.length d)%nat).
Proof.
  induction s as [|a s [IH1 IH2]].
  - split.
    + intros d H. injection H as <-. reflexivity.
    + intros c d H. discriminate H.
  - split.
    + intros d H. exact (IH2 a d H).
    + intros c d H. cbn [hexDecode] in H.
      destruct (fromHexChar c); [|discriminate].
      destruct (fromHexChar a); [|discriminate].
      destruct (hexDecode s) as [d'|] eqn:Hd; [|discriminate].
      injection H as <-. simpl. rewrite (IH1 d' eq_refl). lia.
Qed.

Section BlockRemoveTarget.

Context `{PP : PermissionPkg} `{AP : ApiPkg}.

(** The hex form round-trips.  An id of 12 bytes has a hex form that
    [IsObjectIdHex] accepts and [ObjectIdHex] reads back; an accepted
    string decodes to 12 bytes, whose hex form decodes to the same id.  So
    the target value that [eventBlockRemove] records in its audit event
    names the very id it asks [RemoveBlock] to end. *)
Theorem ObjectId_hex_round_trip :
  (forall id : ObjectId,
      String.length id = 12%nat ->
      IsObjectIdHex (Hex id) = true /\ ObjectIdHex (Hex id) = id)
  /\ (forall s : string,
      IsObjectIdHex s = true ->
      String.length (ObjectIdHex s) = 12%nat
      /\ IsObjectIdHex (Hex (ObjectIdHex s)) = true
      /\ ObjectIdHex (Hex (ObjectIdHex s)) = ObjectIdHex s)
  /\ (forall (r : Request) (t : Token),
      IsObjectIdHex (uuidOf r) = true ->
      ObjectIdHex (Target_Value
                     (Opts_Target (blockRemoveOpts r t (ObjectIdHex (uuidOf r)))))
      = ObjectIdHex (uuidOf r)).
Proof.
  assert (Hid : forall id : ObjectId,
             String.length id = 12%nat ->
             IsObjectIdHex (Hex id) = true /\ ObjectIdHex (Hex id) = id).
  { intros id Hlen. unfold IsObjectIdHex, ObjectIdHex, Hex.
    rewrite length_hexEncode, Hlen, hexDecode_hexEncode. split; reflexivity. }
  assert (Hlen : forall s, IsObjectIdHex s = true ->
                           String.length (ObjectIdHex s) = 12%nat).
  { intros s Hs. pose proof (ObjectIdHex_defined s Hs) as Hdec.
    unfold IsObjectIdHex in Hs.
    destruct (Nat.eqb (String.length s) 24) eqn:H24; [|discriminate].
    apply Nat.eqb_eq in H24.
    pose proof (proj1 (hexDecode_length s) _ Hdec). lia. }
  split; [exact Hid|]. split.
  - intros s Hs. split; [exact (Hlen s Hs)|]. apply Hid. exact (Hlen s Hs).
  - intros r t Hs. simpl. apply Hid. exact (Hlen _ Hs).
Qed.

End BlockRemoveTarget.

(** ** The helpers of the test suite *)

Lemma formatInt_message_not_empty (a b : string) :
  a ++ " is not greater than " ++ b <> "".
Proof. destruct a; discriminate. Qed.

(** The checker [Greater] accepts exactly two [int] values of which the
    first is greater; every refusal comes with a message and an acceptance
    with none; it never accepts a pair in both orders; the names it is
    given play no part. *)
Theorem Greater_checks_strict_order :
  forall (params : list Suite.value) (names : list string),
    (fst (Suite.greaterChecker_Check params names) = true <->
       exists n1 n2, params = [Suite.VInt n1; Suite.VInt n2] /\ n1 > n2)
    /\ (snd (Suite.greaterChecker_Check params names) = "" <->
        fst (Suite.greaterChecker_Check params names) = true)
    /\ (forall names', Suite.greaterChecker_Check params names'
                       = Suite.greaterChecker_Check params names)
    /\ (forall a b, params = [a; b] ->
          fst (Suite.greaterChecker_Check params names) = true ->
          fst (Suite.greaterChecker_Check [b; a] names) = false).
Proof.
  intros params names.
  destruct params as [|[n1|x1] [|[n2|x2] [|p2 rest]]]; simpl.
  all: try (split; [split; [discriminate | intros (a & b & H & _); discriminate H]|];
            split; [split; discriminate|];
            split; [reflexivity|]; intros a b H; discriminate).
  destruct (n1 >? n2) eqn:Hgt; simpl.
  - apply Z.gtb_lt in Hgt.
    split; [split; [intros _; exists n1, n2; split; [reflexivity | lia] | reflexivity]|].
    split; [tauto|]. split; [reflexivity|].
    intros a b H _. injection H as <- <-. simpl.
    destruct (n2 >? n1) eqn:Hlt; [apply Z.gtb_lt in Hlt; lia | reflexivity].
  - split.
    + split; [discriminate|]. intros (a & b & H & Hab). injection H as <- <-.
      assert (Hgt' : (n1 >? n2) = true) by (apply Z.gtb_lt; lia). congruence.
    + split; [split; [intro H; elim (formatInt_message_not_empty _ _ H) | discriminate]|].
      split; [reflexivity|]. intros a b _ H. discriminate H.
Qed.


Lemma fromHexChar_digits (c : ascii) :
  match fromHexChar c with Some _ => true | None => false end
  = existsb (Ascii.eqb c) (list_ascii_of_string "0123456789abcdefABCDEF").
Proof. destruct c as [[] [] [] [] [] [] [] []]; reflexivity. Qed.

Lemma hexDecode_defined (n : nat) :
  forall s, String.length s = (2 * n)%nat ->
    (hexDecode s <> None <->
     Forall (fun c => fromHexChar c <> None) (list_ascii_of_string s)).
Proof.
  induction n as [|n IH]; intros s Hlen.
  - destruct s; [|discriminate]. simpl. split; [constructor | discriminate].
  - destruct s as [|a [|b rest]]; try (simpl in Hlen; lia).
    assert (Hrest : String.length rest = (2 * n)%nat) by (simpl in Hlen; lia).
    specialize (IH rest Hrest). cbn [hexDecode list_ascii_of_string].
    split.
    + intro Hdec.
      destruct (fromHexChar a) eqn:Ha; [|elim Hdec; reflexivity].
      destruct (fromHexChar b) eqn:Hb; [|elim Hdec; reflexivity].
      destruct (hexDecode rest) eqn:Hr; [|elim Hdec; reflexivity].
      constructor; [congruence|]. constructor; [congruence|].
      apply IH. discriminate.
    + intro Hall. inversion Hall as [|? ? Ha Hall']. subst.
      inversion Hall' as [|? ? Hb Hall'']. subst.
      apply IH in Hall''.
      destruct (fromHexChar a); [|elim Ha; reflexivity].
      destruct (fromHexChar b); [|elim Hb; reflexivity].
      destruct (hexDecode rest); [discriminate | elim Hall''; reflexivity].
Qed.

(** The path parameters that the handlers accept as an ObjectId are
    exactly the strings of 24 characters taken from the digits and the
    letters a to f in either case. *)
Theorem IsObjectIdHex_accepts :
  forall s : string,
    IsObjectIdHex s = true <->
    String.length s = 24%nat
    /\ Forall (fun c => In c (list_ascii_of_string "0123456789abcdefABCDEF"))
              (list_ascii_of_string s).
Proof.
  intro s.
  assert (Hdigit : forall c, fromHexChar c <> None <->
                             In c (list_ascii_of_string "0123456789abcdefABCDEF")).
  { intro c. pose proof (fromHexChar_digits c) as Hc.
    destruct (fromHexChar c).
    - split; [|discriminate]. intros _.
      symmetry in Hc. apply existsb_exists in Hc. destruct Hc as (x & Hin & Heq).
      apply Ascii.eqb_eq in Heq. subst x. exact Hin.
    - split; [intro H; elim H; reflexivity|].
      intros Hin _.
      assert (Hex : existsb (Ascii.eqb c)
                      (list_ascii_of_string "0123456789abcdefABCDEF") = true).
      { apply existsb_exists. exists c. split; [exact Hin | apply Ascii.eqb_refl]. }
      congruence. }
  unfold IsObjectIdHex.
  destruct (Nat.eqb (String.length s) 24) eqn:Hlen; simpl.
  - apply Nat.eqb_eq in Hlen.
    pose proof (hexDecode_defined 12 s Hlen) as Hdef.
    split.
    + intro Hdec. split; [exact Hlen|].
      assert (Hsome : hexDecode s <> None)
        by (destruct (hexDecode s); [discriminate | discriminate Hdec]).
      apply Hdef in Hsome. eapply Forall_impl; [|exact Hsome].
      intros c Hc. apply Hdigit. exact Hc.
    + intros [_ Hall].
      assert (Hsome : hexDecode s <> None).
      { apply Hdef. eapply Forall_impl; [|exact Hall].
        intros c Hc. apply Hdigit. exact Hc. }
      destruct (hexDecode s); [reflexivity | elim Hsome; reflexivity].
  - apply Nat.eqb_neq in Hlen. split; [discriminate | intros [H _]; contradiction].
Qed.

(** ** Runs of the further properties on the concrete instance *)


Lemma cancel_is_attempted_only_when_authorized_witness :
  Engine.GetByID (ObjectIdHex Fixture.uuid1) Fixture.store1 = Ok Fixture.deploy1
  /\ "stop" <> "".
Proof.
  destruct (cancel_is_attempted_only_when_authorized
              (PP := Fixture.permissions) (AP := Fixture.api) (EP := Fixture.engine)
              (Fixture.request Fixture.uuid1 [("reason", ["stop"])])
              Fixture.admin Fixture.store1 Fixture.deploy1 "stop" "admin")
    as (_ & Hget & _ & Hreason & _).
  - cbv. do 3 right. left. reflexivity.
  - split; [exact Hget | exact Hreason].
Defined.


Lemma block_operations_run_only_when_authorized_witness :
  Check (PermissionPkg := Fixture.permissions) Fixture.admin
        (PermEventBlockAdd (PermissionPkg := Fixture.permissions)) [] = true.
Proof.
  destruct (block_operations_run_only_when_authorized
              (PP := Fixture.permissions) (AP := Fixture.api) (EP := Fixture.engine)
              (Fixture.request "" [("reason", ["maintenance"])])
              Fixture.admin Engine.emptyStore) as (Hadd & _).
  apply Hadd. reflexivity.
Defined.

Lemma suppressAll_results_witness :
  map UniqueID [fst (Fixture.suppress Fixture.deploy1);
                fst (Fixture.suppress Fixture.deploy2)]
  = map UniqueID [Fixture.deploy1; Fixture.deploy2].
Proof.
  apply (suppressAll_results
           (PP := Fixture.permissions) (AP := Fixture.api) (DP := Fixture.apps)
           [Fixture.deploy1; Fixture.deploy2]).
  reflexivity.
Defined.

Lemma successful_answers_witness :
  resp (snd (Fixture.kinds (Fixture.request "" []) Fixture.guest
                           (initState Fixture.store1)))
  = mkResponse (Some StatusNoContent) [] []
  \/ exists ks, ks <> []
       /\ resp (snd (Fixture.kinds (Fixture.request "" []) Fixture.guest
                                   (initState Fixture.store1)))
          = mkResponse (Some StatusOK) [("Content-Type", "application/json")]
                       [PKinds ks].
Proof.
  pose proof (successful_answers
                (PP := Fixture.permissions) (AP := Fixture.api) (DP := Fixture.apps)
                (EP := Fixture.engine)
                (Fixture.request "" []) Fixture.guest Fixture.store1) as Hall.
  cbv zeta in Hall. destruct Hall as (_ & Hkinds & _).
  apply Hkinds. reflexivity.
Defined.

Lemma malformed_uuid_is_rejected_witness :
  Fixture.info (Fixture.request "xyz" []) Fixture.guest (initState Fixture.store1)
  = (Err (HTTP StatusBadRequest "uuid parameter is not ObjectId: xyz"),
     initState Fixture.store1).
Proof.
  apply (malformed_uuid_is_rejected
           (PP := Fixture.permissions) (AP := Fixture.api) (DP := Fixture.apps)
           (EP := Fixture.engine)
           (Fixture.request "xyz" []) Fixture.guest Fixture.store1).
  reflexivity.
Defined.

Lemma refused_audit_event_stops_the_block_operation_witness :
  Fixture.blockRemove (Fixture.request Fixture.uuid1 []) Fixture.admin
                      (initState Fixture.frozen)
  = (Err Blocked,
     mkHState Fixture.frozen
       [CallCheck Fixture.admin (mkScheme "event-block.remove") [];
        CallNew (blockRemoveOpts (PP := Fixture.permissions) (AP := Fixture.api)
                   (Fixture.request Fixture.uuid1 []) Fixture.admin
                   (ObjectIdHex Fixture.uuid1))]
       emptyResponse).
Proof.
  destruct (refused_audit_event_stops_the_block_operation
              (PP := Fixture.permissions) (AP := Fixture.api) (EP := Fixture.engine))
    as [_ Hremove].
  apply Hremove; reflexivity.
Defined.

Lemma eventCancel_follows_TryCancel_witness :
  fst (Fixture.cancel (Fixture.request Fixture.uuid1 [("reason", ["stop"])])
                      Fixture.admin (initState Fixture.store1)) = Ok tt
  /\ resp (snd (Fixture.cancel (Fixture.request Fixture.uuid1 [("reason", ["stop"])])
                               Fixture.admin (initState Fixture.store1)))
     = mkResponse (Some StatusNoContent) [] [].
Proof.
  edestruct (eventCancel_follows_TryCancel
               (PP := Fixture.permissions) (AP := Fixture.api) (EP := Fixture.engine)
               (Fixture.request Fixture.uuid1 [("reason", ["stop"])])
               Fixture.admin Fixture.store1) as [Hok _];
    [reflexivity | reflexivity | simpl; discriminate | reflexivity | reflexivity
     | reflexivity |].
  unfold Fixture.cancel. rewrite (Hok eq_refl). split; reflexivity.
Defined.


Lemma audit_event_is_closed_only_if_opened_witness :
  Some (HTTP StatusNotFound ("active event block not found: " ++ Fixture.uuid1))
  = errOf (fst (Fixture.blockRemove (Fixture.request Fixture.uuid1 [])
                                    Fixture.admin (initState Fixture.store1))).
Proof.
  destruct (audit_event_is_closed_only_if_opened
              (PP := Fixture.permissions) (AP := Fixture.api) (EP := Fixture.engine)
              (Fixture.request Fixture.uuid1 []) Fixture.admin Fixture.store1)
    as (_ & Hremove & _).
  eapply Hremove. cbv. do 3 right. left. reflexivity.
Defined.

Lemma ObjectId_hex_round_trip_witness :
  IsObjectIdHex (Hex (ObjectIdHex Fixture.uuid1)) = true
  /\ ObjectIdHex (Hex (ObjectIdHex Fixture.uuid1)) = ObjectIdHex Fixture.uuid1.
Proof.
  destruct (ObjectId_hex_round_trip (PP := Fixture.permissions) (AP := Fixture.api))
    as [Hid _].
  apply Hid. reflexivity.
Defined.

Lemma Greater_checks_strict_order_witness :
  fst (Suite.greaterChecker_Check [Suite.VInt 1; Suite.VInt 3] []) = false.
Proof.
  destruct (Greater_checks_strict_order [Suite.VInt 3; Suite.VInt 1] [])
    as (_ & _ & _ & Hswap).
  apply (Hswap (Suite.VInt 3) (Suite.VInt 1)); reflexivity.
Defined.


Example Greater_messages :
  map (fun ps => Suite.greaterChecker_Check ps [])
      [[Suite.VInt 2; Suite.VInt (-7)]; [Suite.VInt (-7); Suite.VInt 2];
       [Suite.VInt 1]; [Suite.VOther "x"; Suite.VInt 1]]
  = [(true, ""); (false, "-7 is not greater than 2");
     (false, "you should pass two values to compare");
     (false, "first parameter should be int")].
Proof. reflexivity. Qed.
